(** * SineWave: a PWM sine generator for the ATmega328P (Arduino)

    A shallow embedding of [SineWave.ino]:
    - the three pre-computed sample tables [SINE_FULL_WAVE] and the
      preprocessor chains that select a table and the Timer/Counter2 clock
      divider from the build-time macros [SAMPLE_COUNT] and [PRESCALER];
    - [setup], [loop] and the overflow handler [ISR(TIMER2_OVF_vect)] as
      functions on the registers the sketch touches;
    - the sine law the tables were generated from, over the real numbers,
      with a certified interval evaluation of [sin] at the 1024 sample
      phases. *)

From Stdlib Require Import ZArith List Lia Bool String FinFun.
From Stdlib Require Import QArith Qround Qabs.
From Stdlib Require Import Reals Lra.
Import ListNotations.

Local Open Scope Z_scope.

(** ** The pre-computed tables

    Each list is the brace initialiser of one
    [const uint8_t SINE_FULL_WAVE[SAMPLE_COUNT]] declaration, in source
    order, fourteen literals per line as in the sketch. *)

Definition SINE_FULL_WAVE_256 : list Z :=
  [
    128; 131; 134; 137; 140; 143; 146; 149; 152; 155; 158; 162; 165; 167;
    170; 173; 176; 179; 182; 185; 188; 190; 193; 196; 198; 201; 203; 206;
    208; 211; 213; 215; 218; 220; 222; 224; 226; 228; 230; 232; 234; 235;
    237; 238; 240; 241; 243; 244; 245; 246; 248; 249; 250; 250; 251; 252;
    253; 253; 254; 254; 254; 255; 255; 255; 255; 255; 255; 255; 254; 254;
    254; 253; 253; 252; 251; 250; 250; 249; 248; 246; 245; 244; 243; 241;
    240; 238; 237; 235; 234; 232; 230; 228; 226; 224; 222; 220; 218; 215;
    213; 211; 208; 206; 203; 201; 198; 196; 193; 190; 188; 185; 182; 179;
    176; 173; 170; 167; 165; 162; 158; 155; 152; 149; 146; 143; 140; 137;
    134; 131; 128; 124; 121; 118; 115; 112; 109; 106; 103; 100;  97;  93;
     90;  88;  85;  82;  79;  76;  73;  70;  67;  65;  62;  59;  57;  54;
     52;  49;  47;  44;  42;  40;  37;  35;  33;  31;  29;  27;  25;  23;
     21;  20;  18;  17;  15;  14;  12;  11;  10;   9;   7;   6;   5;   5;
      4;   3;   2;   2;   1;   1;   1;   0;   0;   0;   0;   0;   0;   0;
      1;   1;   1;   2;   2;   3;   4;   5;   5;   6;   7;   9;  10;  11;
     12;  14;  15;  17;  18;  20;  21;  23;  25;  27;  29;  31;  33;  35;
     37;  40;  42;  44;  47;  49;  52;  54;  57;  59;  62;  65;  67;  70;
     73;  76;  79;  82;  85;  88;  90;  93;  97; 100; 103; 106; 109; 112;
    115; 118; 121; 124
  ].

Definition SINE_FULL_WAVE_512 : list Z :=
  [
    128; 129; 131; 132; 134; 135; 137; 138; 140; 142; 143; 145; 146; 148;
    149; 151; 152; 154; 155; 157; 158; 160; 162; 163; 165; 166; 167; 169;
    170; 172; 173; 175; 176; 178; 179; 181; 182; 183; 185; 186; 188; 189;
    190; 192; 193; 194; 196; 197; 198; 200; 201; 202; 203; 205; 206; 207;
    208; 210; 211; 212; 213; 214; 215; 217; 218; 219; 220; 221; 222; 223;
    224; 225; 226; 227; 228; 229; 230; 231; 232; 233; 234; 234; 235; 236;
    237; 238; 238; 239; 240; 241; 241; 242; 243; 243; 244; 245; 245; 246;
    246; 247; 248; 248; 249; 249; 250; 250; 250; 251; 251; 252; 252; 252;
    253; 253; 253; 253; 254; 254; 254; 254; 254; 255; 255; 255; 255; 255;
    255; 255; 255; 255; 255; 255; 255; 255; 255; 255; 254; 254; 254; 254;
    254; 253; 253; 253; 253; 252; 252; 252; 251; 251; 250; 250; 250; 249;
    249; 248; 248; 247; 246; 246; 245; 245; 244; 243; 243; 242; 241; 241;
    240; 239; 238; 238; 237; 236; 235; 234; 234; 233; 232; 231; 230; 229;
    228; 227; 226; 225; 224; 223; 222; 221; 220; 219; 218; 217; 215; 214;
    213; 212; 211; 210; 208; 207; 206; 205; 203; 202; 201; 200; 198; 197;
    196; 194; 193; 192; 190; 189; 188; 186; 185; 183; 182; 181; 179; 178;
    176; 175; 173; 172; 170; 169; 167; 166; 165; 163; 162; 160; 158; 157;
    155; 154; 152; 151; 149; 148; 146; 145; 143; 142; 140; 138; 137; 135;
    134; 132; 131; 129; 128; 126; 124; 123; 121; 120; 118; 117; 115; 113;
    112; 110; 109; 107; 106; 104; 103; 101; 100;  98;  97;  95;  93;  92;
     90;  89;  88;  86;  85;  83;  82;  80;  79;  77;  76;  74;  73;  72;
     70;  69;  67;  66;  65;  63;  62;  61;  59;  58;  57;  55;  54;  53;
     52;  50;  49;  48;  47;  45;  44;  43;  42;  41;  40;  38;  37;  36;
     35;  34;  33;  32;  31;  30;  29;  28;  27;  26;  25;  24;  23;  22;
     21;  21;  20;  19;  18;  17;  17;  16;  15;  14;  14;  13;  12;  12;
     11;  10;  10;   9;   9;   8;   7;   7;   6;   6;   5;   5;   5;   4;
      4;   3;   3;   3;   2;   2;   2;   2;   1;   1;   1;   1;   1;   0;
      0;   0;   0;   0;   0;   0;   0;   0;   0;   0;   0;   0;   0;   0;
      1;   1;   1;   1;   1;   2;   2;   2;   2;   3;   3;   3;   4;   4;
      5;   5;   5;   6;   6;   7;   7;   8;   9;   9;  10;  10;  11;  12;
     12;  13;  14;  14;  15;  16;  17;  17;  18;  19;  20;  21;  21;  22;
     23;  24;  25;  26;  27;  28;  29;  30;  31;  32;  33;  34;  35;  36;
     37;  38;  40;  41;  42;  43;  44;  45;  47;  48;  49;  50;  52;  53;
     54;  55;  57;  58;  59;  61;  62;  63;  65;  66;  67;  69;  70;  72;
     73;  74;  76;  77;  79;  80;  82;  83;  85;  86;  88;  89;  90;  92;
     93;  95;  97;  98; 100; 101; 103; 104; 106; 107; 109; 110; 112; 113;
    115; 117; 118; 120; 121; 123; 124; 126
  ].

Definition SINE_FULL_WAVE_1024 : list Z :=
  [
    128; 128; 129; 130; 131; 131; 132; 133; 134; 135; 135; 136; 137; 138;
    138; 139; 140; 141; 142; 142; 143; 144; 145; 145; 146; 147; 148; 149;
    149; 150; 151; 152; 152; 153; 154; 155; 155; 156; 157; 158; 158; 159;
    160; 161; 162; 162; 163; 164; 165; 165; 166; 167; 167; 168; 169; 170;
    170; 171; 172; 173; 173; 174; 175; 176; 176; 177; 178; 178; 179; 180;
    181; 181; 182; 183; 183; 184; 185; 186; 186; 187; 188; 188; 189; 190;
    190; 191; 192; 192; 193; 194; 194; 195; 196; 196; 197; 198; 198; 199;
    200; 200; 201; 202; 202; 203; 203; 204; 205; 205; 206; 207; 207; 208;
    208; 209; 210; 210; 211; 211; 212; 213; 213; 214; 214; 215; 215; 216;
    217; 217; 218; 218; 219; 219; 220; 220; 221; 221; 222; 222; 223; 224;
    224; 225; 225; 226; 226; 227; 227; 228; 228; 228; 229; 229; 230; 230;
    231; 231; 232; 232; 233; 233; 234; 234; 234; 235; 235; 236; 236; 236;
    237; 237; 238; 238; 238; 239; 239; 240; 240; 240; 241; 241; 241; 242;
    242; 242; 243; 243; 243; 244; 244; 244; 245; 245; 245; 246; 246; 246;
    246; 247; 247; 247; 248; 248; 248; 248; 249; 249; 249; 249; 250; 250;
    250; 250; 250; 251; 251; 251; 251; 251; 252; 252; 252; 252; 252; 252;
    253; 253; 253; 253; 253; 253; 253; 254; 254; 254; 254; 254; 254; 254;
    254; 254; 254; 254; 255; 255; 255; 255; 255; 255; 255; 255; 255; 255;
    255; 255; 255; 255; 255; 255; 255; 255; 255; 255; 255; 255; 255; 255;
    255; 255; 255; 255; 255; 254; 254; 254; 254; 254; 254; 254; 254; 254;
    254; 254; 253; 253; 253; 253; 253; 253; 253; 252; 252; 252; 252; 252;
    252; 251; 251; 251; 251; 251; 250; 250; 250; 250; 250; 249; 249; 249;
    249; 248; 248; 248; 248; 247; 247; 247; 246; 246; 246; 246; 245; 245;
    245; 244; 244; 244; 243; 243; 243; 242; 242; 242; 241; 241; 241; 240;
    240; 240; 239; 239; 238; 238; 238; 237; 237; 236; 236; 236; 235; 235;
    234; 234; 234; 233; 233; 232; 232; 231; 231; 230; 230; 229; 229; 228;
    228; 228; 227; 227; 226; 226; 225; 225; 224; 224; 223; 222; 222; 221;
    221; 220; 220; 219; 219; 218; 218; 217; 217; 216; 215; 215; 214; 214;
    213; 213; 212; 211; 211; 210; 210; 209; 208; 208; 207; 207; 206; 205;
    205; 204; 203; 203; 202; 202; 201; 200; 200; 199; 198; 198; 197; 196;
    196; 195; 194; 194; 193; 192; 192; 191; 190; 190; 189; 188; 188; 187;
    186; 186; 185; 184; 183; 183; 182; 181; 181; 180; 179; 178; 178; 177;
    176; 176; 175; 174; 173; 173; 172; 171; 170; 170; 169; 168; 167; 167;
    166; 165; 165; 164; 163; 162; 162; 161; 160; 159; 158; 158; 157; 156;
    155; 155; 154; 153; 152; 152; 151; 150; 149; 149; 148; 147; 146; 145;
    145; 144; 143; 142; 142; 141; 140; 139; 138; 138; 137; 136; 135; 135;
    134; 133; 132; 131; 131; 130; 129; 128; 128; 127; 126; 125; 124; 124;
    123; 122; 121; 120; 120; 119; 118; 117; 117; 116; 115; 114; 113; 113;
    112; 111; 110; 110; 109; 108; 107; 106; 106; 105; 104; 103; 103; 102;
    101; 100; 100;  99;  98;  97;  97;  96;  95;  94;  93;  93;  92;  91;
     90;  90;  89;  88;  88;  87;  86;  85;  85;  84;  83;  82;  82;  81;
     80;  79;  79;  78;  77;  77;  76;  75;  74;  74;  73;  72;  72;  71;
     70;  69;  69;  68;  67;  67;  66;  65;  65;  64;  63;  63;  62;  61;
     61;  60;  59;  59;  58;  57;  57;  56;  55;  55;  54;  53;  53;  52;
     52;  51;  50;  50;  49;  48;  48;  47;  47;  46;  45;  45;  44;  44;
     43;  42;  42;  41;  41;  40;  40;  39;  38;  38;  37;  37;  36;  36;
     35;  35;  34;  34;  33;  33;  32;  31;  31;  30;  30;  29;  29;  28;
     28;  27;  27;  27;  26;  26;  25;  25;  24;  24;  23;  23;  22;  22;
     21;  21;  21;  20;  20;  19;  19;  19;  18;  18;  17;  17;  17;  16;
     16;  15;  15;  15;  14;  14;  14;  13;  13;  13;  12;  12;  12;  11;
     11;  11;  10;  10;  10;   9;   9;   9;   9;   8;   8;   8;   7;   7;
      7;   7;   6;   6;   6;   6;   5;   5;   5;   5;   5;   4;   4;   4;
      4;   4;   3;   3;   3;   3;   3;   3;   2;   2;   2;   2;   2;   2;
      2;   1;   1;   1;   1;   1;   1;   1;   1;   1;   1;   1;   0;   0;
      0;   0;   0;   0;   0;   0;   0;   0;   0;   0;   0;   0;   0;   0;
      0;   0;   0;   0;   0;   0;   0;   0;   0;   0;   0;   0;   0;   1;
      1;   1;   1;   1;   1;   1;   1;   1;   1;   1;   2;   2;   2;   2;
      2;   2;   2;   3;   3;   3;   3;   3;   3;   4;   4;   4;   4;   4;
      5;   5;   5;   5;   5;   6;   6;   6;   6;   7;   7;   7;   7;   8;
      8;   8;   9;   9;   9;   9;  10;  10;  10;  11;  11;  11;  12;  12;
     12;  13;  13;  13;  14;  14;  14;  15;  15;  15;  16;  16;  17;  17;
     17;  18;  18;  19;  19;  19;  20;  20;  21;  21;  21;  22;  22;  23;
     23;  24;  24;  25;  25;  26;  26;  27;  27;  27;  28;  28;  29;  29;
     30;  30;  31;  31;  32;  33;  33;  34;  34;  35;  35;  36;  36;  37;
     37;  38;  38;  39;  40;  40;  41;  41;  42;  42;  43;  44;  44;  45;
     45;  46;  47;  47;  48;  48;  49;  50;  50;  51;  52;  52;  53;  53;
     54;  55;  55;  56;  57;  57;  58;  59;  59;  60;  61;  61;  62;  63;
     63;  64;  65;  65;  66;  67;  67;  68;  69;  69;  70;  71;  72;  72;
     73;  74;  74;  75;  76;  77;  77;  78;  79;  79;  80;  81;  82;  82;
     83;  84;  85;  85;  86;  87;  88;  88;  89;  90;  90;  91;  92;  93;
     93;  94;  95;  96;  97;  97;  98;  99; 100; 100; 101; 102; 103; 103;
    104; 105; 106; 106; 107; 108; 109; 110; 110; 111; 112; 113; 113; 114;
    115; 116; 117; 117; 118; 119; 120; 120; 121; 122; 123; 124; 124; 125;
    126; 127
  ].

(** ** Build-time configuration

    [SAMPLE_COUNT] and [PRESCALER] are macros; the [#if]/[#elif] chains pick
    the code that is compiled and end in [#error]. *)

Inductive build (A : Type) : Type :=
| Built (a : A)
| BuildError (msg : string).

Arguments Built {A} a.
Arguments BuildError {A} msg.

Definition SAMPLE_COUNT_error : string :=
  "Valid values for SAMPLE_COUNT are: 256, 512, 1024".

Definition PRESCALER_error : string :=
  "Valid PRESCALER values for TIMER2 are: 1, 8, 32, 64, 128, 256, 1024".

(** The preprocessor evaluates the controlling expression of an [#if] in
    its widest integer type, 64 bits wide: a macro that is an integer
    literal, with or without a sign, enters the comparison reduced modulo
    [2^64] (for a literal that does not fit the compiler warns and carries
    on). *)
Definition preprocessor_value (x : Z) : Z := x mod 2 ^ 64.

(** [#if SAMPLE_COUNT == 256 ... #elif SAMPLE_COUNT == 512 ...
     #elif SAMPLE_COUNT == 1024 ... #else #error ... #endif],
    on the value the preprocessor has for [SAMPLE_COUNT]. *)
Definition SINE_FULL_WAVE_for (SAMPLE_COUNT : Z) : build (list Z) :=
  if SAMPLE_COUNT =? 256 then Built SINE_FULL_WAVE_256
  else if SAMPLE_COUNT =? 512 then Built SINE_FULL_WAVE_512
  else if SAMPLE_COUNT =? 1024 then Built SINE_FULL_WAVE_1024
  else BuildError SAMPLE_COUNT_error.

(** The register bits named in the sketch.  Their positions come from the
    device header, which the sketch does not define; a register is therefore
    kept as the set of its named bits. *)
Inductive bit : Type :=
| COM2A1 | WGM21 | WGM20 | CS22 | CS21 | CS20 | PORTB3 | TOIE2.

Definition bit_eqb (a b : bit) : bool :=
  match a, b with
  | COM2A1, COM2A1 | WGM21, WGM21 | WGM20, WGM20 | CS22, CS22
  | CS21, CS21 | CS20, CS20 | PORTB3, PORTB3 | TOIE2, TOIE2 => true
  | _, _ => false
  end.

Definition reg : Type := bit -> bool.

(** [REG = 0] *)
Definition reg_zero : reg := fun _ => false.

Definition bitSet (r : reg) (b : bit) : reg :=
  fun x => if bit_eqb x b then true else r x.

Definition bitClear (r : reg) (b : bit) : reg :=
  fun x => if bit_eqb x b then false else r x.

(** One line of the [#if PRESCALER == ...] chain: what is done to [CS22],
    [CS21] and [CS20] of [TCCR2B], in that order ([true] is [bitSet],
    [false] is [bitClear]). *)
Definition clock_select : Type := (bool * bool * bool)%type.

Definition PRESCALER_bits (PRESCALER : Z) : build clock_select :=
  if PRESCALER =? 1 then Built (false, false, true)
  else if PRESCALER =? 8 then Built (false, true, false)
  else if PRESCALER =? 32 then Built (false, true, true)
  else if PRESCALER =? 64 then Built (true, false, false)
  else if PRESCALER =? 128 then Built (true, false, true)
  else if PRESCALER =? 256 then Built (true, true, false)
  else if PRESCALER =? 1024 then Built (true, true, true)
  else BuildError PRESCALER_error.

(** The divider each [CS22 CS21 CS20] setting selects, from the table in the
    comment of [setup]; [000] is "no clock source". *)
Definition clock_divider (cs : clock_select) : option Z :=
  match cs with
  | (false, false, false) => None
  | (false, false, true) => Some 1
  | (false, true, false) => Some 8
  | (false, true, true) => Some 32
  | (true, false, false) => Some 64
  | (true, false, true) => Some 128
  | (true, true, false) => Some 256
  | (true, true, true) => Some 1024
  end.

(** What a successful build fixes: the table that is compiled in and the
    clock-select statements of [setup]. *)
Record sketch : Type := mkSketch {
  sk_SAMPLE_COUNT : Z;
  sk_PRESCALER : Z;
  sk_SINE_FULL_WAVE : list Z;
  sk_clock_select : clock_select
}.

(** The two chains in file order, the table first, the prescaler inside
    [setup] second, each on the 64-bit value the preprocessor computes for
    its macro. *)
Definition compile (PRESCALER SAMPLE_COUNT : Z) : build sketch :=
  match SINE_FULL_WAVE_for (preprocessor_value SAMPLE_COUNT) with
  | BuildError msg => BuildError msg
  | Built tbl =>
      match PRESCALER_bits (preprocessor_value PRESCALER) with
      | BuildError msg => BuildError msg
      | Built cs => Built (mkSketch SAMPLE_COUNT PRESCALER tbl cs)
      end
  end.

Definition valid_SAMPLE_COUNT : list Z := [256; 512; 1024].
Definition valid_PRESCALER : list Z := [1; 8; 32; 64; 128; 256; 1024].

(** The macro values on which 64-bit evaluation is exact. *)
Definition preprocessor_range (x : Z) : Prop := - 2 ^ 63 <= x < 2 ^ 64.

(** ** The machine state the sketch touches *)

Record avr : Type := mkAvr {
  OCR2A : Z;        (* Timer/Counter2 output compare register A, 8 bits *)
  TCCR2A : reg;     (* Timer/Counter2 control register A *)
  TCCR2B : reg;     (* Timer/Counter2 control register B *)
  DDRB : reg;       (* port B data direction *)
  TIMSK2 : reg;     (* Timer/Counter2 interrupt mask *)
  SREG_I : bool;    (* global interrupt enable *)
  ISR_i : Z         (* [static uint16_t i] of the handler *)
}.

Definition set_OCR2A (v : Z) (s : avr) : avr :=
  mkAvr v (TCCR2A s) (TCCR2B s) (DDRB s) (TIMSK2 s) (SREG_I s) (ISR_i s).
Definition set_TCCR2A (r : reg) (s : avr) : avr :=
  mkAvr (OCR2A s) r (TCCR2B s) (DDRB s) (TIMSK2 s) (SREG_I s) (ISR_i s).
Definition set_TCCR2B (r : reg) (s : avr) : avr :=
  mkAvr (OCR2A s) (TCCR2A s) r (DDRB s) (TIMSK2 s) (SREG_I s) (ISR_i s).
Definition set_DDRB (r : reg) (s : avr) : avr :=
  mkAvr (OCR2A s) (TCCR2A s) (TCCR2B s) r (TIMSK2 s) (SREG_I s) (ISR_i s).
Definition set_TIMSK2 (r : reg) (s : avr) : avr :=
  mkAvr (OCR2A s) (TCCR2A s) (TCCR2B s) (DDRB s) r (SREG_I s) (ISR_i s).
Definition set_SREG_I (b : bool) (s : avr) : avr :=
  mkAvr (OCR2A s) (TCCR2A s) (TCCR2B s) (DDRB s) (TIMSK2 s) b (ISR_i s).
Definition set_ISR_i (v : Z) (s : avr) : avr :=
  mkAvr (OCR2A s) (TCCR2A s) (TCCR2B s) (DDRB s) (TIMSK2 s) (SREG_I s) v.

Definition uint16_t (x : Z) : Z := x mod 65536.

(** [bitSet]/[bitClear] on one of [CS22], [CS21], [CS20] of [TCCR2B]. *)
Definition bitWrite_TCCR2B (set : bool) (b : bit) (s : avr) : avr :=
  set_TCCR2B ((if set then bitSet else bitClear) (TCCR2B s) b) s.

(** [setup()], with the clock-select line the preprocessor kept. *)
Definition setup (cs : clock_select) (s : avr) : avr :=
  let '(cs22, cs21, cs20) := cs in
  let s := set_OCR2A 0 s in
  let s := set_TCCR2A reg_zero s in
  let s := set_TCCR2B reg_zero s in
  let s := set_TCCR2A (bitSet (TCCR2A s) COM2A1) s in
  let s := set_TCCR2A (bitSet (TCCR2A s) WGM21) s in
  let s := set_TCCR2A (bitSet (TCCR2A s) WGM20) s in
  let s := bitWrite_TCCR2B cs22 CS22 s in
  let s := bitWrite_TCCR2B cs21 CS21 s in
  let s := bitWrite_TCCR2B cs20 CS20 s in
  let s := set_DDRB (bitSet (DDRB s) PORTB3) s in
  let s := set_SREG_I false s in                    (* cli() *)
  let s := set_TIMSK2 reg_zero s in
  let s := set_TIMSK2 (bitSet (TIMSK2 s) TOIE2) s in
  set_SREG_I true s.                                (* sei() *)

(** [loop()] has an empty body. *)
Definition loop (s : avr) : avr := s.

(** Static storage is initialised before [setup] runs: [i = 0]. *)
Definition startup (cs : clock_select) (reset : avr) : avr :=
  setup cs (set_ISR_i 0 reset).

(** The clock-select bits as [setup] leaves them in [TCCR2B]. *)
Definition TCCR2B_clock_select (s : avr) : clock_select :=
  (TCCR2B s CS22, TCCR2B s CS21, TCCR2B s CS20).

(** ** The overflow handler

    Statements of the handler run in a small state-and-failure monad: a read
    outside the table has no defined result and is the only failure. *)

Definition Exec (A : Type) : Type := avr -> option (A * avr).

Definition ret {A : Type} (a : A) : Exec A := fun s => Some (a, s).

Definition bind {A B : Type} (m : Exec A) (k : A -> Exec B) : Exec B :=
  fun s => match m s with
           | Some (a, s') => k a s'
           | None => None
           end.

Declare Scope exec_scope.
Delimit Scope exec_scope with exec.
Notation "x <- m ;; k" := (bind m (fun x => k))
  (at level 61, m at next level, right associativity) : exec_scope.
Notation "m ;;; k" := (bind m (fun _ => k))
  (at level 61, right associativity) : exec_scope.

Section Sampler.

(** The macro and the table of the build at hand. *)
Variable SAMPLE_COUNT : Z.
Variable SINE_FULL_WAVE : list Z.

(** [i++]: yields the old value, leaves the incremented one in [i]. *)
Definition post_increment_i : Exec Z :=
  fun s => Some (ISR_i s, set_ISR_i (uint16_t (ISR_i s + 1)) s).

(** [SINE_FULL_WAVE[idx]] *)
Definition read_SINE_FULL_WAVE (idx : Z) : Exec Z :=
  fun s => if idx <? 0 then None
           else match nth_error SINE_FULL_WAVE (Z.to_nat idx) with
                | Some v => Some (v, s)
                | None => None
                end.

(** [OCR2A = v]; the table holds [uint8_t], the width of the register. *)
Definition write_OCR2A (v : Z) : Exec unit :=
  fun s => Some (tt, set_OCR2A v s).

(** [i &= mask] *)
Definition and_assign_i (mask : Z) : Exec unit :=
  fun s => Some (tt, set_ISR_i (uint16_t (Z.land (ISR_i s) mask)) s).

(** [ISR(TIMER2_OVF_vect)]:
    [OCR2A = SINE_FULL_WAVE[i++]; i &= (SAMPLE_COUNT - 1);] *)
Definition ISR_TIMER2_OVF : Exec unit :=
  (idx <- post_increment_i ;;
   v <- read_SINE_FULL_WAVE idx ;;
   write_OCR2A v ;;;
   and_assign_i (SAMPLE_COUNT - 1))%exec.

(** [n] consecutive overflow events: the values written to [OCR2A], in
    order, and the final state. *)
Fixpoint overflow_events (n : nat) (s : avr) : option (list Z * avr) :=
  match n with
  | O => Some ([], s)
  | S n' =>
      match ISR_TIMER2_OVF s with
      | None => None
      | Some (_, s') =>
          match overflow_events n' s' with
          | None => None
          | Some (out, s'') => Some (OCR2A s' :: out, s'')
          end
      end
  end.

(** The index each of [n] consecutive invocations finds on entry. *)
Fixpoint entry_indices (n : nat) (s : avr) : option (list Z) :=
  match n with
  | O => Some []
  | S n' =>
      match ISR_TIMER2_OVF s with
      | None => None
      | Some (_, s') =>
          match entry_indices n' s' with
          | None => None
          | Some l => Some (ISR_i s :: l)
          end
      end
  end.

(** Foreground and interrupt context interleaved. *)
Inductive event : Type := Overflow | LoopIteration.

Fixpoint run (evs : list event) (s : avr) : option (list Z * avr) :=
  match evs with
  | [] => Some ([], s)
  | LoopIteration :: evs' => run evs' (loop s)
  | Overflow :: evs' =>
      match ISR_TIMER2_OVF s with
      | None => None
      | Some (_, s') =>
          match run evs' s' with
          | None => None
          | Some (out, s'') => Some (OCR2A s' :: out, s'')
          end
      end
  end.

Definition count_overflows (evs : list event) : nat :=
  List.length (filter (fun e => match e with Overflow => true | _ => false end) evs).

End Sampler.

(** ** The sine law of the specification

    The generator script is not among the sources; the specification gives
    its law as [sample[i] = round(offset + amplitude * sin(2*PI*i/N))] with
    [offset = amplitude = 127.5].  These definitions follow that wording and
    are what the compiled-in tables are compared with. *)

Local Open Scope R_scope.

Definition spec_sine_value (N i : Z) : R :=
  127.5 + 127.5 * sin (2 * PI * IZR i / IZR N).

(** Rounding to the nearest integer, halves upwards. *)
Definition Rround (x : R) : Z := Int_part (x + / 2).

Definition spec_sample (N i : Z) : Z := Rround (spec_sine_value N i).

Local Close Scope R_scope.

(** ** The frequency law of the header comment

    [F_CPU / (<Prescaler Factor> * 2^<Timer Size> * <Sample Count>)] *)

Definition TIMER_SIZE : Z := 8.

Definition cycles_per_overflow (PRESCALER : Z) : Z := PRESCALER * 2 ^ TIMER_SIZE.

Definition cycles_per_wave (PRESCALER SAMPLE_COUNT : Z) : Z :=
  cycles_per_overflow PRESCALER * SAMPLE_COUNT.

Definition frequency_hz (F_CPU PRESCALER SAMPLE_COUNT : Z) : Q :=
  (inject_Z F_CPU / inject_Z (cycles_per_wave PRESCALER SAMPLE_COUNT))%Q.

(** A frequency in hundredths of a hertz, to the nearest hundredth and
    truncated. *)
Definition hundredths_nearest (f : Q) : Z := Qfloor (f * 100 + (1 # 2))%Q.
Definition hundredths_truncated (f : Q) : Z := Qfloor (f * 100)%Q.
Definition hundredths_up (f : Q) : Z := Qceiling (f * 100)%Q.

(** A figure printed with two decimals, given in hundredths, is the
    frequency rounded to hundredths, down or up. *)
Definition printed_as (f : Q) (h : Z) : Prop :=
  h = hundredths_truncated f \/ h = hundredths_up f.

(** The frequency of the wave from the machine state: the divider that the
    clock-select bits in [TCCR2B] stand for, [2^8] timer counts per overflow
    and [period] overflow events per wave. *)
Definition output_frequency_hz (F_CPU : Z) (s : avr) (period : Z) : option Q :=
  match clock_divider (TCCR2B_clock_select s) with
  | Some d => Some (inject_Z F_CPU / inject_Z (cycles_per_overflow d * period))%Q
  | None => None
  end.

(** ** Measures on a table *)

(** Magnitude of the jump from entry [N - 1] back to entry [0]. *)
Definition wrap_step (N : Z) (tbl : list Z) : Z :=
  Z.abs (nth 0 tbl 0 - nth (Z.to_nat (N - 1)) tbl 0).

(** Largest jump between neighbouring entries inside the table. *)
Fixpoint max_adjacent_step (tbl : list Z) : Z :=
  match tbl with
  | a :: (b :: _) as rest => Z.max (Z.abs (b - a)) (max_adjacent_step rest)
  | _ => 0
  end.

(** One step of the 8-bit quantisation: one count of [OCR2A]. *)
Definition quantization_step : Z := 1.

Definition register_max : Z := 255.

Definition in_register_range (v : Z) : bool := (0 <=? v) && (v <=? register_max).

(** ** Certified enclosures of [sin] at the sample phases

    Fixed-point intervals with outward rounding.  [cos (PI/512)] comes from
    [cos (PI/2) = 0] by eight half-angle steps, [sin (PI/512)] from the
    Pythagorean identity, and the multiples of [PI/512] in the first
    quadrant from the addition formulas; the other quadrants are reflections
    of the first. *)

Definition SCALE : Z := 2 ^ 60.

Record interval : Type := mkI { lo : Z; hi : Z }.

Definition encloses (I : interval) (x : R) : Prop :=
  (IZR (lo I) <= x * IZR SCALE <= IZR (hi I))%R.

Definition half_angle_cos (c : interval) : interval :=
  mkI (Z.sqrt ((SCALE + lo c) * SCALE / 2))
      (Z.sqrt ((SCALE + hi c) * SCALE / 2 + 1) + 1).

Definition sin_of_cos (c : interval) : interval :=
  mkI (Z.sqrt (SCALE * SCALE - hi c * hi c))
      (Z.sqrt (SCALE * SCALE - lo c * lo c) + 1).

Definition unit_cos : interval :=
  Eval vm_compute in Nat.iter 8 half_angle_cos (mkI 0 0).
Definition unit_sin : interval :=
  Eval vm_compute in sin_of_cos unit_cos.

(** From the enclosures at [x] to those at [x + PI/512]. *)
Definition rotate (sc : interval * interval) : interval * interval :=
  let (s, c) := sc in
  (mkI ((lo s * lo unit_cos + lo c * lo unit_sin) / SCALE)
       ((hi s * hi unit_cos + hi c * hi unit_sin) / SCALE + 1),
   mkI (Z.max 0 ((lo c * lo unit_cos - hi s * hi unit_sin) / SCALE))
       ((hi c * hi unit_cos - lo s * lo unit_sin) / SCALE + 1)).

(** The enclosures at [x], [x + PI/512], ..., [n] of them. *)
Fixpoint sin_cos_from (n : nat) (sc : interval * interval)
  : list (interval * interval) :=
  match n with
  | O => []
  | S n' => sc :: sin_cos_from n' (rotate sc)
  end.

(** Enclosures of [sin] and [cos] at [j * PI/512], [j = 0 .. 256], starting
    from [sin 0 = 0] and [cos 0 = 1]. *)
Definition sin_cos_table : list (interval * interval) :=
  Eval vm_compute in sin_cos_from 257 (mkI 0 0, mkI SCALE SCALE).

Definition sin_cos_at (j : nat) : interval * interval :=
  nth j sin_cos_table (mkI 0 0, mkI 0 0).

Definition neg_interval (I : interval) : interval := mkI (- hi I) (- lo I).

(** Enclosure of [sin (m * PI/512)] for [0 <= m < 1024]. *)
Definition sin_at (m : Z) : interval :=
  if m <=? 256 then fst (sin_cos_at (Z.to_nat m))
  else if m <=? 512 then fst (sin_cos_at (Z.to_nat (512 - m)))
  else if m <=? 768 then neg_interval (fst (sin_cos_at (Z.to_nat (m - 512))))
  else neg_interval (fst (sin_cos_at (Z.to_nat (1024 - m)))).

(** Entry [i] of an [N]-sample table holds [v], decided on the enclosure:
    [v - 1/2 <= 127.5 + 127.5 * sin < v + 1/2], cleared of fractions. *)
Definition sample_ok (N i v : Z) : bool :=
  let I := sin_at (i * (1024 / N)) in
  ((2 * v - 256) * SCALE <=? 255 * lo I) && (255 * hi I <? (2 * v - 254) * SCALE).

Definition table_ok (N : Z) (tbl : list Z) : bool :=
  forallb (fun i => sample_ok N (Z.of_nat i) (nth i tbl 0)) (seq 0 (List.length tbl)).

(** The phase step between neighbouring entries of the finest table. *)
Definition unit_angle : R := (PI / 512)%R.

(** An enclosure whose lower end is not negative. *)
Definition nonneg_encloses (I : interval) (x : R) : Prop :=
  0 <= lo I /\ encloses I x.

(** ** Reference behaviour of the sampler *)

(** The values a cyclic walk over [tbl] yields in [n] steps from index [i],
    and the indices it passes. *)
Definition cyclic_indices (N i : Z) (n : nat) : list Z :=
  map (fun j => (i + Z.of_nat j) mod N) (seq 0 n).

Definition cyclic_wave (N : Z) (tbl : list Z) (i : Z) (n : nat) : list Z :=
  map (fun k => nth (Z.to_nat k) tbl 0) (cyclic_indices N i n).

(** A table whose length is the power of two [N], small enough for the
    16-bit index. *)
Definition pow2_table (N : Z) (tbl : list Z) : Prop :=
  exists k, 0 <= k <= 15 /\ N = 2 ^ k /\ Z.of_nat (List.length tbl) = N.

(** A power-on state to run examples from. *)
Definition power_on : avr := mkAvr 0 reg_zero reg_zero reg_zero reg_zero false 0.

(** Two states agree outside [OCR2A] and [i]. *)
Definition same_frame (s s' : avr) : Prop :=
  TCCR2A s' = TCCR2A s /\ TCCR2B s' = TCCR2B s /\ DDRB s' = DDRB s /\
  TIMSK2 s' = TIMSK2 s /\ SREG_I s' = SREG_I s.

(** ** [setup] statement by statement

    The body of [setup] as the list of its register writes, in source order,
    and the states it passes through. *)

Definition setup_statements (cs : clock_select) : list (avr -> avr) :=
  let '(cs22, cs21, cs20) := cs in
  [ set_OCR2A 0;
    set_TCCR2A reg_zero;
    set_TCCR2B reg_zero;
    (fun s => set_TCCR2A (bitSet (TCCR2A s) COM2A1) s);
    (fun s => set_TCCR2A (bitSet (TCCR2A s) WGM21) s);
    (fun s => set_TCCR2A (bitSet (TCCR2A s) WGM20) s);
    bitWrite_TCCR2B cs22 CS22;
    bitWrite_TCCR2B cs21 CS21;
    bitWrite_TCCR2B cs20 CS20;
    (fun s => set_DDRB (bitSet (DDRB s) PORTB3) s);
    set_SREG_I false;
    set_TIMSK2 reg_zero;
    (fun s => set_TIMSK2 (bitSet (TIMSK2 s) TOIE2) s);
    set_SREG_I true ].

Definition exec_statements (stmts : list (avr -> avr)) (s : avr) : avr :=
  fold_left (fun st f => f st) stmts s.

(** The state after the first [k] statements of [setup]. *)
Definition setup_prefix (cs : clock_select) (k : nat) (s : avr) : avr :=
  exec_statements (firstn k (setup_statements cs)) s.

(** ** The frequency table of the header comment

    One row per prescaler; the three figures are the frequencies printed for
    256, 512 and 1024 samples, in hundredths of a hertz. *)

Definition header_frequency_table : list (Z * (Z * Z * Z)) :=
  [ (1,    (24414, 12207, 6103));
    (8,    (3052,  1525,  763));
    (32,   (763,   381,   191));
    (64,   (381,   191,   95));
    (128,  (191,   95,    48));
    (256,  (95,    48,    24));
    (1024, (24,    12,    6)) ].

(** The table as (prescaler, sample count, printed hundredths) triples. *)
Definition header_entries : list (Z * Z * Z) :=
  flat_map (fun row => let '(P, (f256, f512, f1024)) := row in
                       [(P, 256, f256); (P, 512, f512); (P, 1024, f1024)])
           header_frequency_table.

Definition F_CPU_16MHz : Z := 16000000.

(** ** Further measures on a table and on a run *)

Definition entry (tbl : list Z) (i : Z) : Z := nth (Z.to_nat i) tbl 0.

Definition table_sum (tbl : list Z) : Z := fold_right Z.add 0 tbl.

(** The value the [k]-th overflow event (counted from 0) writes. *)
Definition nth_output (SAMPLE_COUNT : Z) (tbl : list Z) (k : nat) (s : avr) : option Z :=
  match overflow_events SAMPLE_COUNT tbl (S k) s with
  | Some (out, _) => nth_error out k
  | None => None
  end.

(** * Properties *)

(** ** Build-time selection *)

Lemma SINE_FULL_WAVE_for_cases (N : Z) (tbl : list Z) :
  SINE_FULL_WAVE_for N = Built tbl ->
  (N = 256 /\ tbl = SINE_FULL_WAVE_256) \/
  (N = 512 /\ tbl = SINE_FULL_WAVE_512) \/
  (N = 1024 /\ tbl = SINE_FULL_WAVE_1024).
Proof.
  unfold SINE_FULL_WAVE_for.
  destruct (Z.eqb_spec N 256) as [-> | _]; [intros [= <-]; auto |].
  destruct (Z.eqb_spec N 512) as [-> | _]; [intros [= <-]; auto |].
  destruct (Z.eqb_spec N 1024) as [-> | _]; [intros [= <-]; auto |].
  discriminate.
Qed.

Lemma SINE_FULL_WAVE_for_pow2 (N : Z) (tbl : list Z) :
  SINE_FULL_WAVE_for N = Built tbl -> pow2_table N tbl.
Proof.
  intros H. destruct (SINE_FULL_WAVE_for_cases N tbl H) as [[-> ->] | [[-> ->] | [-> ->]]].
  - exists 8. repeat split; try lia; reflexivity.
  - exists 9. repeat split; try lia; reflexivity.
  - exists 10. repeat split; try lia; reflexivity.
Qed.

Lemma compile_inv (P N : Z) (sk : sketch) :
  compile P N = Built sk ->
  SINE_FULL_WAVE_for (preprocessor_value N) = Built (sk_SINE_FULL_WAVE sk) /\
  PRESCALER_bits (preprocessor_value P) = Built (sk_clock_select sk) /\
  sk_SAMPLE_COUNT sk = N /\ sk_PRESCALER sk = P.
Proof.
  unfold compile.
  destruct (SINE_FULL_WAVE_for (preprocessor_value N)) as [tbl | ]; [| discriminate].
  destruct (PRESCALER_bits (preprocessor_value P)) as [cs | ]; [| discriminate].
  intros [= <-]. simpl. auto.
Qed.

(** ** One invocation of the handler *)

Section SamplerFacts.

Variable N : Z.
Variable tbl : list Z.

Lemma mask_is_mod (k x : Z) :
  0 <= k -> N = 2 ^ k -> Z.land x (N - 1) = x mod N.
Proof.
  intros Hk ->. rewrite <- Z.land_ones by exact Hk.
  f_equal. rewrite Z.ones_equiv. lia.
Qed.

(** The handler written out, without the monad. *)
Lemma ISR_unfold (s : avr) :
  ISR_TIMER2_OVF N tbl s =
  if ISR_i s <? 0 then None
  else match nth_error tbl (Z.to_nat (ISR_i s)) with
       | Some v =>
           Some (tt, mkAvr v (TCCR2A s) (TCCR2B s) (DDRB s) (TIMSK2 s) (SREG_I s)
                       (uint16_t (Z.land (uint16_t (ISR_i s + 1)) (N - 1))))
       | None => None
       end.
Proof.
  unfold ISR_TIMER2_OVF, bind, post_increment_i, read_SINE_FULL_WAVE,
    write_OCR2A, and_assign_i.
  cbn [ISR_i set_ISR_i].
  destruct (ISR_i s <? 0); [reflexivity |].
  destruct (nth_error tbl (Z.to_nat (ISR_i s))); reflexivity.
Qed.

Hypothesis Hpow2 : pow2_table N tbl.

Lemma pow2_table_pos : 0 < N <= 32768.
Proof.
  destruct Hpow2 as (k & Hk & -> & _). split.
  - apply Z.pow_pos_nonneg; lia.
  - change 32768 with (2 ^ 15). apply Z.pow_le_mono_r; lia.
Qed.

(** In range, the handler succeeds: it stores the entry at [i] and
    advances [i] modulo [N]. *)
Lemma ISR_in_range (s : avr) :
  0 <= ISR_i s < N ->
  ISR_TIMER2_OVF N tbl s =
  Some (tt, mkAvr (nth (Z.to_nat (ISR_i s)) tbl 0)
              (TCCR2A s) (TCCR2B s) (DDRB s) (TIMSK2 s) (SREG_I s)
              ((ISR_i s + 1) mod N)).
Proof.
  intros Hi. pose proof pow2_table_pos as HN.
  destruct Hpow2 as (k & Hk & HNk & Hlen).
  rewrite ISR_unfold.
  destruct (Z.ltb_spec (ISR_i s) 0) as [? | _]; [lia |].
  destruct (nth_error tbl (Z.to_nat (ISR_i s))) as [v |] eqn:Hnth.
  - rewrite (nth_error_nth tbl _ 0 Hnth).
    do 3 f_equal. unfold uint16_t.
    rewrite (Z.mod_small (ISR_i s + 1)) by lia.
    rewrite (mask_is_mod k) by (lia || assumption).
    apply Z.mod_small.
    pose proof (Z.mod_pos_bound (ISR_i s + 1) N). lia.
  - apply nth_error_None in Hnth. lia.
Qed.

Lemma cyclic_indices_S (i : Z) (n : nat) :
  0 <= i < N ->
  cyclic_indices N i (S n) = i :: cyclic_indices N ((i + 1) mod N) n.
Proof.
  intros Hi. unfold cyclic_indices. cbn [seq map].
  rewrite Z.add_0_r, Z.mod_small by lia. f_equal.
  rewrite <- seq_shift, map_map. apply map_ext. intros j.
  rewrite Zplus_mod_idemp_l. f_equal. lia.
Qed.

Lemma cyclic_wave_S (i : Z) (n : nat) :
  0 <= i < N ->
  cyclic_wave N tbl i (S n) =
  nth (Z.to_nat i) tbl 0 :: cyclic_wave N tbl ((i + 1) mod N) n.
Proof.
  intros Hi. unfold cyclic_wave. rewrite cyclic_indices_S by exact Hi.
  reflexivity.
Qed.

(** [n] overflow events from an in-range index all succeed; they emit the
    cyclic walk, leave [i] at [(i + n) mod N] and touch nothing but
    [OCR2A] and [i]. *)
Lemma overflow_events_spec (n : nat) (s : avr) :
  0 <= ISR_i s < N ->
  exists s',
    overflow_events N tbl n s = Some (cyclic_wave N tbl (ISR_i s) n, s') /\
    ISR_i s' = (ISR_i s + Z.of_nat n) mod N /\
    same_frame s s'.
Proof.
  pose proof pow2_table_pos as HN.
  revert s. induction n as [| n IH]; intros s Hi.
  - exists s. cbn [overflow_events]. unfold same_frame.
    rewrite Z.add_0_r, Z.mod_small by lia. auto 10.
  - cbn [overflow_events]. rewrite ISR_in_range by exact Hi.
    set (s1 := mkAvr _ _ _ _ _ _ _).
    assert (H1 : 0 <= ISR_i s1 < N) by (apply Z.mod_pos_bound; lia).
    destruct (IH s1 H1) as (s' & Hrun & Hidx & Hfr).
    exists s'. rewrite Hrun. split; [| split].
    + rewrite cyclic_wave_S by exact Hi. reflexivity.
    + rewrite Hidx. cbn [ISR_i s1]. subst s1. cbn [ISR_i].
      rewrite Zplus_mod_idemp_l. f_equal. lia.
    + exact Hfr.
Qed.

Lemma entry_indices_spec (n : nat) (s : avr) :
  0 <= ISR_i s < N ->
  entry_indices N tbl n s = Some (cyclic_indices N (ISR_i s) n).
Proof.
  pose proof pow2_table_pos as HN.
  revert s. induction n as [| n IH]; intros s Hi.
  - reflexivity.
  - cbn [entry_indices]. rewrite ISR_in_range by exact Hi.
    rewrite IH by (cbn [ISR_i]; apply Z.mod_pos_bound; lia).
    cbn [ISR_i]. rewrite cyclic_indices_S by exact Hi. reflexivity.
Qed.

End SamplerFacts.

(** ** The handler, claim by claim *)

(** C1.  One invocation of the overflow handler, entered with phase index
    [i] in a supported build, stores [SINE_FULL_WAVE[i]] in [OCR2A],
    increments [i] and masks it with [SAMPLE_COUNT - 1]; the other registers
    are left as they were, and the two results are functions of [i] and the
    table alone. *)
Theorem C1_ISR_writes_sample_then_advances (N : Z) (tbl : list Z) (s : avr) :
  SINE_FULL_WAVE_for N = Built tbl ->
  0 <= ISR_i s < N ->
  exists s',
    ISR_TIMER2_OVF N tbl s = Some (tt, s') /\
    OCR2A s' = nth (Z.to_nat (ISR_i s)) tbl 0 /\
    ISR_i s' = Z.land (ISR_i s + 1) (N - 1) /\
    same_frame s s'.
Proof.
  intros Hb Hi. pose proof (SINE_FULL_WAVE_for_pow2 N tbl Hb) as Hp.
  rewrite (ISR_in_range N tbl Hp s Hi).
  eexists. split; [reflexivity |]. cbn [OCR2A ISR_i]. split; [reflexivity |].
  split.
  - destruct Hp as (k & Hk & HN & _). symmetry. apply (mask_is_mod N k); lia.
  - unfold same_frame. cbn. auto.
Qed.

Lemma C1_witness :
  exists s',
    ISR_TIMER2_OVF 256 SINE_FULL_WAVE_256 power_on = Some (tt, s') /\
    OCR2A s' = nth (Z.to_nat (ISR_i power_on)) SINE_FULL_WAVE_256 0 /\
    ISR_i s' = Z.land (ISR_i power_on + 1) (256 - 1) /\
    same_frame power_on s'.
Proof.
  apply (C1_ISR_writes_sample_then_advances 256 SINE_FULL_WAVE_256 power_on).
  - reflexivity.
  - simpl. lia.
Defined.

Lemma cyclic_wave_full_256 :
  cyclic_wave 256 SINE_FULL_WAVE_256 0 256 = SINE_FULL_WAVE_256.
Proof. vm_compute. reflexivity. Qed.

Lemma cyclic_wave_full_512 :
  cyclic_wave 512 SINE_FULL_WAVE_512 0 512 = SINE_FULL_WAVE_512.
Proof. vm_compute. reflexivity. Qed.

Lemma cyclic_wave_full_1024 :
  cyclic_wave 1024 SINE_FULL_WAVE_1024 0 1024 = SINE_FULL_WAVE_1024.
Proof. vm_compute. reflexivity. Qed.

Lemma cyclic_indices_full (N : Z) (tbl : list Z) :
  SINE_FULL_WAVE_for N = Built tbl ->
  cyclic_indices N 0 (Z.to_nat N) = map Z.of_nat (seq 0 (Z.to_nat N)) /\
  cyclic_indices N 0 (S (Z.to_nat N)) = map Z.of_nat (seq 0 (Z.to_nat N)) ++ [0].
Proof.
  intros H.
  destruct (SINE_FULL_WAVE_for_cases N tbl H) as [[-> _] | [[-> _] | [-> _]]];
    split; vm_compute; reflexivity.
Qed.

Lemma cyclic_wave_full (N : Z) (tbl : list Z) :
  SINE_FULL_WAVE_for N = Built tbl ->
  cyclic_wave N tbl 0 (Z.to_nat N) = tbl /\
  cyclic_wave N tbl 0 (Z.to_nat N + Z.to_nat N) = tbl ++ tbl.
Proof.
  intros H.
  destruct (SINE_FULL_WAVE_for_cases N tbl H) as [[-> ->] | [[-> ->] | [-> ->]]];
    split; vm_compute; reflexivity.
Qed.

(** C2.  From phase index 0, [SAMPLE_COUNT] consecutive invocations find the
    indices [0, 1, ..., SAMPLE_COUNT - 1] on entry, each once and in order,
    and put out the whole table; the next invocation finds index 0 again and
    a second round of [SAMPLE_COUNT] invocations repeats the table.  With
    the 256-sample table, 260 overflow events put out the table followed by
    its first four entries. *)
Theorem C2_cyclic_walk (N : Z) (tbl : list Z) (s : avr) :
  SINE_FULL_WAVE_for N = Built tbl ->
  ISR_i s = 0 ->
  entry_indices N tbl (Z.to_nat N) s = Some (map Z.of_nat (seq 0 (Z.to_nat N))) /\
  NoDup (map Z.of_nat (seq 0 (Z.to_nat N))) /\
  (forall i, 0 <= i < N -> In i (map Z.of_nat (seq 0 (Z.to_nat N)))) /\
  (exists s', overflow_events N tbl (Z.to_nat N) s = Some (tbl, s') /\ ISR_i s' = 0) /\
  entry_indices N tbl (S (Z.to_nat N)) s =
    Some (map Z.of_nat (seq 0 (Z.to_nat N)) ++ [0]) /\
  (exists s', overflow_events N tbl (Z.to_nat N + Z.to_nat N) s = Some (tbl ++ tbl, s')) /\
  (N = 256 ->
   exists s', overflow_events N tbl 260 s = Some (tbl ++ firstn 4 tbl, s')).
Proof.
  intros Hb Hi0. pose proof (SINE_FULL_WAVE_for_pow2 N tbl Hb) as Hp.
  pose proof (pow2_table_pos N tbl Hp) as HN.
  assert (Hi : 0 <= ISR_i s < N) by lia.
  destruct (cyclic_indices_full N tbl Hb) as [Hidx Hidx'].
  destruct (cyclic_wave_full N tbl Hb) as [Hw Hw'].
  repeat split.
  - rewrite (entry_indices_spec N tbl Hp _ s Hi), Hi0, Hidx. reflexivity.
  - apply Injective_map_NoDup; [exact Nat2Z.inj | apply seq_NoDup].
  - intros i Hr. apply in_map_iff. exists (Z.to_nat i). split; [lia |].
    apply in_seq. lia.
  - destruct (overflow_events_spec N tbl Hp (Z.to_nat N) s Hi) as (s' & Hrun & Hfin & _).
    exists s'. rewrite Hrun, Hfin, Hi0, Hw. split; [reflexivity |].
    rewrite Z2Nat.id by lia. cbn [Z.add]. apply Z.mod_same. lia.
  - rewrite (entry_indices_spec N tbl Hp _ s Hi), Hi0, Hidx'. reflexivity.
  - destruct (overflow_events_spec N tbl Hp (Z.to_nat N + Z.to_nat N) s Hi)
      as (s' & Hrun & _).
    exists s'. rewrite Hrun, Hi0, Hw'. reflexivity.
  - intros ->.
    destruct (overflow_events_spec 256 tbl Hp 260 s Hi) as (s' & Hrun & _).
    exists s'. rewrite Hrun, Hi0.
    destruct (SINE_FULL_WAVE_for_cases 256 tbl Hb) as [[_ ->] | [[? _] | [? _]]];
      [| discriminate | discriminate].
    vm_compute. reflexivity.
Qed.

Lemma C2_witness :
  exists s',
    overflow_events 256 SINE_FULL_WAVE_256 260 power_on =
    Some (SINE_FULL_WAVE_256 ++ firstn 4 SINE_FULL_WAVE_256, s').
Proof.
  apply (C2_cyclic_walk 256 SINE_FULL_WAVE_256 power_on); reflexivity.
Defined.

(** The handler reads nothing but [i]: from equal indices it fails in both
    states or succeeds in both, with the same [OCR2A] and [i] afterwards. *)
Lemma ISR_reads_only_i (N : Z) (tbl : list Z) (s1 s2 : avr) :
  ISR_i s1 = ISR_i s2 ->
  match ISR_TIMER2_OVF N tbl s1, ISR_TIMER2_OVF N tbl s2 with
  | Some (_, s1'), Some (_, s2') => OCR2A s1' = OCR2A s2' /\ ISR_i s1' = ISR_i s2'
  | None, None => True
  | _, _ => False
  end.
Proof.
  intros H. rewrite !ISR_unfold, H.
  destruct (ISR_i s2 <? 0); [exact I |].
  destruct (nth_error tbl (Z.to_nat (ISR_i s2))); cbn; auto.
Qed.

(** C7.  Determinism: two runs over the same table that start with the same
    phase index write the same sequence of values to [OCR2A], whatever else
    differs between the two starting states. *)
Theorem C7_deterministic_output (N : Z) (tbl : list Z) (n : nat) (s1 s2 : avr) :
  ISR_i s1 = ISR_i s2 ->
  option_map fst (overflow_events N tbl n s1) =
  option_map fst (overflow_events N tbl n s2).
Proof.
  revert s1 s2. induction n as [| n IH]; intros s1 s2 H.
  - reflexivity.
  - cbn [overflow_events].
    pose proof (ISR_reads_only_i N tbl s1 s2 H) as Hstep.
    destruct (ISR_TIMER2_OVF N tbl s1) as [[[] s1'] |],
             (ISR_TIMER2_OVF N tbl s2) as [[[] s2'] |];
      try contradiction; [| reflexivity].
    destruct Hstep as [Hout Hidx].
    specialize (IH s1' s2' Hidx).
    destruct (overflow_events N tbl n s1') as [[o1 t1] |],
             (overflow_events N tbl n s2') as [[o2 t2] |];
      cbn in IH |- *; try discriminate; [| reflexivity].
    injection IH as ->. rewrite Hout. reflexivity.
Qed.

Lemma C7_witness :
  option_map fst (overflow_events 256 SINE_FULL_WAVE_256 5 power_on) =
  option_map fst (overflow_events 256 SINE_FULL_WAVE_256 5
                    (startup (true, true, true) power_on)).
Proof.
  apply (C7_deterministic_output 256 SINE_FULL_WAVE_256 5 power_on
           (startup (true, true, true) power_on)).
  reflexivity.
Defined.

Lemma loop_iter (n : nat) (s : avr) : Nat.iter n loop s = s.
Proof.
  induction n as [| n IH]; [reflexivity |].
  rewrite Nat.iter_succ, IH. reflexivity.
Qed.

Lemma run_overflows_only (N : Z) (tbl : list Z) (evs : list event) (s : avr) :
  run N tbl evs s = overflow_events N tbl (count_overflows evs) s.
Proof.
  revert s. induction evs as [| [|] evs IH]; intros s.
  - reflexivity.
  - change (count_overflows (Overflow :: evs)) with (S (count_overflows evs)).
    cbn [run overflow_events].
    destruct (ISR_TIMER2_OVF N tbl s) as [[[] s'] |]; [| reflexivity].
    rewrite IH. reflexivity.
  - change (count_overflows (LoopIteration :: evs)) with (count_overflows evs).
    cbn [run]. unfold loop. apply IH.
Qed.

(** C9.  The foreground [loop] changes nothing: any number of iterations
    leaves the phase index, [OCR2A] and every other register as they were,
    and a run in which loop iterations and overflow events are interleaved
    ends in the state, and writes the values, that its overflow events
    alone produce. *)
Theorem C9_loop_writes_nothing (N : Z) (tbl : list Z) (evs : list event) (n : nat) (s : avr) :
  loop s = s /\
  Nat.iter n loop s = s /\
  ISR_i (Nat.iter n loop s) = ISR_i s /\
  OCR2A (Nat.iter n loop s) = OCR2A s /\
  run N tbl evs s = overflow_events N tbl (count_overflows evs) s.
Proof.
  rewrite loop_iter. repeat split. apply run_overflows_only.
Qed.

(** C10.  After start-up, any number [k] of invocations succeeds, every one
    of them reading the table in bounds: the index found after [k]
    invocations is [k mod SAMPLE_COUNT], below [SAMPLE_COUNT], and the
    indices found on entry are [0 mod SAMPLE_COUNT, 1 mod SAMPLE_COUNT, ...].
    At the last entry the increment takes the index to [SAMPLE_COUNT], out
    of range, and the mask brings it back to 0 before the handler returns. *)
Theorem C10_index_in_bounds (N : Z) (tbl : list Z) (cs : clock_select) (reset : avr) (k : nat) :
  SINE_FULL_WAVE_for N = Built tbl ->
  (exists out s',
     overflow_events N tbl k (startup cs reset) = Some (out, s') /\
     ISR_i s' = Z.of_nat k mod N /\
     0 <= ISR_i s' < N /\
     (exists v, nth_error tbl (Z.to_nat (ISR_i s')) = Some v)) /\
  entry_indices N tbl k (startup cs reset) =
    Some (map (fun j => Z.of_nat j mod N) (seq 0 k)) /\
  (forall s, ISR_i s = N - 1 ->
     (exists s1, post_increment_i s = Some (N - 1, s1) /\ ISR_i s1 = N) /\
     (exists s', ISR_TIMER2_OVF N tbl s = Some (tt, s') /\ ISR_i s' = 0)).
Proof.
  intros Hb. pose proof (SINE_FULL_WAVE_for_pow2 N tbl Hb) as Hp.
  pose proof (pow2_table_pos N tbl Hp) as HN.
  assert (H0 : ISR_i (startup cs reset) = 0) by (destruct cs as [[? ?] ?]; reflexivity).
  assert (Hi : 0 <= ISR_i (startup cs reset) < N) by lia.
  split; [| split].
  - destruct (overflow_events_spec N tbl Hp k _ Hi) as (s' & Hrun & Hfin & _).
    rewrite H0 in Hfin. cbn [Z.add] in Hfin.
    assert (Hr : 0 <= ISR_i s' < N) by (rewrite Hfin; apply Z.mod_pos_bound; lia).
    exists (cyclic_wave N tbl (ISR_i (startup cs reset)) k), s'.
    repeat split; try assumption; try lia.
    destruct (nth_error tbl (Z.to_nat (ISR_i s'))) as [v |] eqn:Hnth; [eauto |].
    apply nth_error_None in Hnth. destruct Hp as (? & _ & _ & Hlen). lia.
  - rewrite (entry_indices_spec N tbl Hp k _ Hi), H0. reflexivity.
  - intros s Hs. split.
    + eexists. unfold post_increment_i. rewrite Hs. split; [reflexivity |].
      cbn [ISR_i set_ISR_i]. unfold uint16_t.
      replace (N - 1 + 1) with N by lia. apply Z.mod_small. lia.
    + rewrite (ISR_in_range N tbl Hp s) by lia.
      eexists. split; [reflexivity |]. cbn [ISR_i]. rewrite Hs.
      replace (N - 1 + 1) with N by lia. apply Z.mod_same. lia.
Qed.

Lemma C10_witness :
  exists out s',
    overflow_events 1024 SINE_FULL_WAVE_1024 2050 (startup (false, false, true) power_on)
      = Some (out, s') /\
    ISR_i s' = Z.of_nat 2050 mod 1024 /\
    0 <= ISR_i s' < 1024 /\
    (exists v, nth_error SINE_FULL_WAVE_1024 (Z.to_nat (ISR_i s')) = Some v).
Proof.
  apply (C10_index_in_bounds 1024 SINE_FULL_WAVE_1024 (false, false, true) power_on 2050).
  reflexivity.
Defined.

(** ** The tables *)

Lemma tables_in_range :
  forallb in_register_range SINE_FULL_WAVE_256 = true /\
  forallb in_register_range SINE_FULL_WAVE_512 = true /\
  forallb in_register_range SINE_FULL_WAVE_1024 = true.
Proof. repeat split; vm_compute; reflexivity. Qed.

Lemma in_register_range_spec (v : Z) :
  in_register_range v = true <-> 0 <= v <= register_max.
Proof.
  unfold in_register_range. rewrite andb_true_iff, !Z.leb_le. reflexivity.
Qed.

(** C4.  In every supported build the compiled-in table has exactly
    [SAMPLE_COUNT] initialisers, [SAMPLE_COUNT] is 256, 512 or 1024, and
    every entry lies between 0 and 255. *)
Theorem C4_table_length_and_range (N : Z) (tbl : list Z) :
  SINE_FULL_WAVE_for N = Built tbl ->
  In N valid_SAMPLE_COUNT /\
  Z.of_nat (List.length tbl) = N /\
  Forall (fun v => 0 <= v <= register_max) tbl /\
  (forall i, 0 <= i < N -> 0 <= nth (Z.to_nat i) tbl 0 <= register_max).
Proof.
  intros Hb.
  assert (Hlen : Z.of_nat (List.length tbl) = N).
  { destruct (SINE_FULL_WAVE_for_pow2 N tbl Hb) as (_ & _ & _ & H). exact H. }
  assert (Hall : Forall (fun v => 0 <= v <= register_max) tbl).
  { apply Forall_forall. intros v Hv. apply in_register_range_spec.
    destruct tables_in_range as (H256 & H512 & H1024).
    destruct (SINE_FULL_WAVE_for_cases N tbl Hb) as [[_ ->] | [[_ ->] | [_ ->]]].
    - exact (proj1 (forallb_forall _ _) H256 v Hv).
    - exact (proj1 (forallb_forall _ _) H512 v Hv).
    - exact (proj1 (forallb_forall _ _) H1024 v Hv). }
  repeat split; try assumption.
  - destruct (SINE_FULL_WAVE_for_cases N tbl Hb) as [[-> _] | [[-> _] | [-> _]]];
      cbn; auto.
  - rewrite Forall_forall in Hall. apply Hall, nth_In. lia.
  - rewrite Forall_forall in Hall. apply Hall, nth_In. lia.
Qed.

Lemma C4_witness :
  In 512 valid_SAMPLE_COUNT /\
  Z.of_nat (List.length SINE_FULL_WAVE_512) = 512 /\
  Forall (fun v => 0 <= v <= register_max) SINE_FULL_WAVE_512 /\
  (forall i, 0 <= i < 512 -> 0 <= nth (Z.to_nat i) SINE_FULL_WAVE_512 0 <= register_max).
Proof.
  apply (C4_table_length_and_range 512 SINE_FULL_WAVE_512). reflexivity.
Defined.

(** C3, as claimed, fails on the 256-sample table: its first entry is 128,
    its last 124, four quantisation steps apart. *)
Lemma C3_counterexample :
  SINE_FULL_WAVE_for 256 = Built SINE_FULL_WAVE_256 /\
  nth 0 SINE_FULL_WAVE_256 0 = 128 /\
  nth (Z.to_nat (256 - 1)) SINE_FULL_WAVE_256 0 = 124 /\
  ~ wrap_step 256 SINE_FULL_WAVE_256 <= quantization_step.
Proof.
  repeat split; try reflexivity. vm_compute. intros H. apply H. reflexivity.
Qed.

(** C3, amended.  In every supported build the first and the last entry are
    [1024 / SAMPLE_COUNT] quantisation steps apart (4, 2 and 1 for 256, 512
    and 1024 samples), at most 4, and never more than the largest jump
    between neighbouring entries inside the table: the wrap is no steeper
    than the wave itself. *)
Theorem C3_wrap_step_no_spike (N : Z) (tbl : list Z) :
  SINE_FULL_WAVE_for N = Built tbl ->
  wrap_step N tbl = 1024 / N * quantization_step /\
  wrap_step N tbl <= 4 * quantization_step /\
  wrap_step N tbl <= max_adjacent_step tbl.
Proof.
  intros Hb.
  destruct (SINE_FULL_WAVE_for_cases N tbl Hb) as [[-> ->] | [[-> ->] | [-> ->]]];
    repeat split; vm_compute; congruence.
Qed.

Lemma C3_witness :
  wrap_step 256 SINE_FULL_WAVE_256 = 1024 / 256 * quantization_step /\
  wrap_step 256 SINE_FULL_WAVE_256 <= 4 * quantization_step /\
  wrap_step 256 SINE_FULL_WAVE_256 <= max_adjacent_step SINE_FULL_WAVE_256.
Proof.
  apply (C3_wrap_step_no_spike 256 SINE_FULL_WAVE_256). reflexivity.
Defined.

(** ** Build-time validation *)

Lemma setup_clock_select (cs : clock_select) (s : avr) :
  TCCR2B_clock_select (setup cs s) = cs.
Proof. destruct cs as [[[|] [|]] [|]]; reflexivity. Qed.

Lemma PRESCALER_bits_divider (P : Z) (cs : clock_select) :
  PRESCALER_bits P = Built cs -> clock_divider cs = Some P.
Proof.
  unfold PRESCALER_bits.
  repeat match goal with
         | |- context [?a =? ?b] => destruct (Z.eqb_spec a b) as [-> | ?]
         end; intros [= <-] || discriminate; reflexivity.
Qed.

Lemma PRESCALER_bits_valid (P : Z) :
  (exists cs, PRESCALER_bits P = Built cs) <-> In P valid_PRESCALER.
Proof.
  unfold PRESCALER_bits, valid_PRESCALER. cbn [In].
  repeat match goal with
         | |- context [?a =? ?b] => destruct (Z.eqb_spec a b) as [-> | ?]
         end;
    (split; [intros [cs H]; first [discriminate H | auto 10]
            | intros H; first [eexists; reflexivity | exfalso; intuition congruence]]).
Qed.

Lemma PRESCALER_bits_invalid (P : Z) :
  ~ In P valid_PRESCALER -> PRESCALER_bits P = BuildError PRESCALER_error.
Proof.
  intros H. destruct (PRESCALER_bits P) as [cs |] eqn:E.
  - exfalso. apply H, PRESCALER_bits_valid. eauto.
  - revert E. unfold PRESCALER_bits.
    repeat match goal with
           | |- context [?a =? ?b] => destruct (Z.eqb_spec a b)
           end; intros [= <-] || discriminate; reflexivity.
Qed.

Lemma SINE_FULL_WAVE_for_valid (N : Z) :
  (exists tbl, SINE_FULL_WAVE_for N = Built tbl) <-> In N valid_SAMPLE_COUNT.
Proof.
  unfold SINE_FULL_WAVE_for, valid_SAMPLE_COUNT. cbn [In].
  repeat match goal with
         | |- context [?a =? ?b] => destruct (Z.eqb_spec a b) as [-> | ?]
         end;
    (split; [intros [cs H]; first [discriminate H | auto 10]
            | intros H; first [eexists; reflexivity | exfalso; intuition congruence]]).
Qed.

Lemma SINE_FULL_WAVE_for_invalid (N : Z) :
  ~ In N valid_SAMPLE_COUNT -> SINE_FULL_WAVE_for N = BuildError SAMPLE_COUNT_error.
Proof.
  intros H. destruct (SINE_FULL_WAVE_for N) as [tbl |] eqn:E.
  - exfalso. apply H, SINE_FULL_WAVE_for_valid. eauto.
  - revert E. unfold SINE_FULL_WAVE_for.
    repeat match goal with
           | |- context [?a =? ?b] => destruct (Z.eqb_spec a b)
           end; intros [= <-] || discriminate; reflexivity.
Qed.

Lemma preprocessor_value_in_range (x : Z) :
  preprocessor_range x ->
  (In (preprocessor_value x) valid_SAMPLE_COUNT <-> In x valid_SAMPLE_COUNT) /\
  (In (preprocessor_value x) valid_PRESCALER <-> In x valid_PRESCALER).
Proof.
  unfold preprocessor_range, preprocessor_value. intros Hx.
  assert (H64 : 2 ^ 64 = 18446744073709551616) by reflexivity.
  assert (H63 : 2 ^ 63 = 9223372036854775808) by reflexivity.
  destruct (Z.neg_nonneg_cases x) as [Hneg | Hpos].
  - assert (E : x mod 2 ^ 64 = x + 2 ^ 64).
    { symmetry. apply (Z.mod_unique x (2 ^ 64) (-1)); lia. }
    rewrite E. unfold valid_SAMPLE_COUNT, valid_PRESCALER. cbn [In]. lia.
  - rewrite Z.mod_small by lia. split; reflexivity.
Qed.

(** C8, as claimed, fails beyond the preprocessor's 64 bits: the prescaler
    [2^64 + 1] is none of 1, 8, 32, 64, 128, 256, 1024, yet the build passes
    and [setup] selects the divider 1. *)
Lemma C8_counterexample :
  ~ In (2 ^ 64 + 1) valid_PRESCALER /\
  exists sk,
    compile (2 ^ 64 + 1) 256 = Built sk /\
    clock_divider (TCCR2B_clock_select (startup (sk_clock_select sk) power_on)) = Some 1.
Proof.
  split.
  - vm_compute. intuition discriminate.
  - eexists. split; vm_compute; reflexivity.
Qed.

(** C8, amended.  The two chains test their macro modulo [2^64]: a build
    passes exactly when [SAMPLE_COUNT] modulo [2^64] is 256, 512 or 1024 and
    [PRESCALER] modulo [2^64] is 1, 8, 32, 64, 128, 256 or 1024, and stops
    at the [#error] of the failing chain otherwise.  For values from
    [-2^63] up to [2^64 - 1] that is: exactly when [SAMPLE_COUNT] and
    [PRESCALER] themselves are in those sets.  In a build that passes, the
    clock-select bits [setup] leaves in [TCCR2B] select a divider of the
    valid set and the table compiled in has 256, 512 or 1024 entries: no
    other configuration reaches run time. *)
Theorem C8_configuration_checked_at_build_time (P N : Z) :
  ((exists sk, compile P N = Built sk) <->
   In (preprocessor_value N) valid_SAMPLE_COUNT /\
   In (preprocessor_value P) valid_PRESCALER) /\
  (preprocessor_range N -> preprocessor_range P ->
   ((exists sk, compile P N = Built sk) <->
    In N valid_SAMPLE_COUNT /\ In P valid_PRESCALER)) /\
  (~ In (preprocessor_value N) valid_SAMPLE_COUNT ->
   compile P N = BuildError SAMPLE_COUNT_error) /\
  (In (preprocessor_value N) valid_SAMPLE_COUNT ->
   ~ In (preprocessor_value P) valid_PRESCALER ->
   compile P N = BuildError PRESCALER_error) /\
  (forall sk reset,
     compile P N = Built sk ->
     clock_divider (TCCR2B_clock_select (startup (sk_clock_select sk) reset))
       = Some (preprocessor_value P) /\
     In (preprocessor_value P) valid_PRESCALER /\
     Z.of_nat (List.length (sk_SINE_FULL_WAVE sk)) = preprocessor_value N /\
     In (preprocessor_value N) valid_SAMPLE_COUNT).
Proof.
  assert (Hiff : (exists sk, compile P N = Built sk) <->
                 In (preprocessor_value N) valid_SAMPLE_COUNT /\
                 In (preprocessor_value P) valid_PRESCALER).
  { split.
    - intros [sk H]. apply compile_inv in H. destruct H as (HN & HP & _). split.
      + apply SINE_FULL_WAVE_for_valid. eauto.
      + apply PRESCALER_bits_valid. eauto.
    - intros [HN HP].
      apply SINE_FULL_WAVE_for_valid in HN. apply PRESCALER_bits_valid in HP.
      destruct HN as [tbl HN], HP as [cs HP].
      unfold compile. rewrite HN, HP. eauto. }
  split; [exact Hiff | split; [| split; [| split]]].
  - intros HrN HrP. rewrite Hiff.
    destruct (preprocessor_value_in_range N HrN) as [EN _].
    destruct (preprocessor_value_in_range P HrP) as [_ EP].
    rewrite EN, EP. reflexivity.
  - intros HN. unfold compile. rewrite (SINE_FULL_WAVE_for_invalid _ HN). reflexivity.
  - intros HN HP. apply SINE_FULL_WAVE_for_valid in HN. destruct HN as [tbl HN].
    unfold compile. rewrite HN, (PRESCALER_bits_invalid _ HP). reflexivity.
  - intros sk reset H.
    assert (Hex : exists sk, compile P N = Built sk) by eauto.
    apply Hiff in Hex. destruct Hex as [HvN HvP].
    apply compile_inv in H. destruct H as (HN & HP & _).
    repeat split; try assumption.
    + unfold startup. rewrite setup_clock_select.
      apply PRESCALER_bits_divider, HP.
    + destruct (SINE_FULL_WAVE_for_pow2 _ _ HN) as (_ & _ & _ & Hlen). exact Hlen.
Qed.

(** ** The tables against the sine law *)

Section SineEnclosures.

Local Open Scope R_scope.

Lemma IZR_SCALE_pos : 0 < IZR SCALE.
Proof. apply IZR_lt. reflexivity. Qed.

Lemma Zdiv_R (a b : Z) :
  (0 < b)%Z ->
  IZR (a / b) * IZR b <= IZR a < IZR (a / b + 1) * IZR b.
Proof.
  intros Hb. rewrite <- !mult_IZR. split.
  - apply IZR_le. pose proof (Z.mul_div_le a b Hb). lia.
  - apply IZR_lt. pose proof (Z.mul_succ_div_gt a b Hb). lia.
Qed.

Lemma Zsqrt_R (n : Z) :
  (0 <= n)%Z ->
  0 <= IZR (Z.sqrt n) /\
  IZR (Z.sqrt n) * IZR (Z.sqrt n) <= IZR n < IZR (Z.sqrt n + 1) * IZR (Z.sqrt n + 1).
Proof.
  intros Hn. pose proof (Z.sqrt_spec n Hn) as [Hl Hu].
  split; [apply IZR_le, Z.sqrt_nonneg |].
  rewrite <- !mult_IZR. split; [apply IZR_le | apply IZR_lt]; lia.
Qed.

Lemma square_le_le (a b : R) : 0 <= b -> a * a <= b * b -> a <= b.
Proof. intros. nra. Qed.

Lemma square_lt_lt (a b : R) : 0 <= b -> a * a < b * b -> a < b.
Proof. intros. nra. Qed.

Lemma half_angle_cos_sound (c : interval) (x : R) :
  nonneg_encloses c (cos (2 * x)) -> 0 <= cos x ->
  nonneg_encloses (half_angle_cos c) (cos x).
Proof.
  intros [Hlo [Hl Hu]] Hc. pose proof IZR_SCALE_pos as HS.
  assert (Hid : 2 * (cos x * IZR SCALE) * (cos x * IZR SCALE)
                = (IZR SCALE + cos (2 * x) * IZR SCALE) * IZR SCALE).
  { rewrite cos_2a_cos. ring. }
  assert (HloR : 0 <= IZR (lo c)) by (apply IZR_le; exact Hlo).
  unfold half_angle_cos, nonneg_encloses, encloses. cbn [lo hi].
  split; [apply Z.sqrt_nonneg |].
  set (C := cos x * IZR SCALE) in *.
  assert (HC : 0 <= C) by (unfold C; nra).
  split.
  - set (n := ((SCALE + lo c) * SCALE / 2)%Z).
    assert (Hn : (0 <= n)%Z).
    { unfold n. apply Z.div_pos; [| lia].
      apply Z.mul_nonneg_nonneg; [| apply Z.lt_le_incl; reflexivity].
      assert (0 < SCALE)%Z by reflexivity. lia. }
    destruct (Zsqrt_R n Hn) as (Hs0 & Hs1 & _).
    destruct (Zdiv_R ((SCALE + lo c) * SCALE) 2 ltac:(lia)) as [Hd _].
    fold n in Hd. rewrite mult_IZR, plus_IZR in Hd.
    apply square_le_le; [exact HC |]. nra.
  - set (m := ((SCALE + hi c) * SCALE / 2 + 1)%Z).
    destruct (Zdiv_R ((SCALE + hi c) * SCALE) 2 ltac:(lia)) as [_ Hd].
    fold m in Hd. rewrite mult_IZR, plus_IZR in Hd.
    assert (Hm : (0 <= m)%Z).
    { apply le_IZR. nra. }
    destruct (Zsqrt_R m Hm) as (Hs0 & _ & Hs1).
    rewrite plus_IZR in Hs1 |- *.
    apply Rlt_le, square_lt_lt; [lra |]. nra.
Qed.

Lemma sin_of_cos_sound (c : interval) (x : R) :
  nonneg_encloses c (cos x) -> 0 <= sin x ->
  nonneg_encloses (sin_of_cos c) (sin x).
Proof.
  intros [Hlo [Hl Hu]] Hs. pose proof IZR_SCALE_pos as HS.
  assert (Hid : (sin x * IZR SCALE) * (sin x * IZR SCALE)
                = IZR SCALE * IZR SCALE
                  - (cos x * IZR SCALE) * (cos x * IZR SCALE)).
  { pose proof (sin2_cos2 x) as H. unfold Rsqr in H.
    replace (sin x * IZR SCALE * (sin x * IZR SCALE))
      with ((sin x * sin x) * (IZR SCALE * IZR SCALE)) by ring.
    replace (sin x * sin x) with (1 - cos x * cos x) by lra. ring. }
  assert (HloR : 0 <= IZR (lo c)) by (apply IZR_le; exact Hlo).
  unfold sin_of_cos, nonneg_encloses, encloses. cbn [lo hi].
  split; [apply Z.sqrt_nonneg |].
  assert (HX : 0 <= sin x * IZR SCALE) by nra.
  pose proof (Zsqrt_R (SCALE * SCALE - hi c * hi c)) as Hn.
  pose proof (Zsqrt_R (SCALE * SCALE - lo c * lo c)) as Hm.
  pose proof (Z.sqrt_neg (SCALE * SCALE - hi c * hi c)) as Hneg.
  assert (Hm0 : (0 <= SCALE * SCALE - lo c * lo c)%Z).
  { apply le_IZR. rewrite minus_IZR, !mult_IZR.
    generalize dependent (IZR SCALE). intros S. intros.
    generalize dependent (cos x * S). generalize dependent (sin x * S).
    intros X C. intros. nra. }
  specialize (Hm Hm0).
  rewrite minus_IZR, !mult_IZR, plus_IZR in Hn, Hm. rewrite plus_IZR.
  destruct (Z.neg_nonneg_cases (SCALE * SCALE - hi c * hi c)) as [Hc | Hc].
  - rewrite (Hneg Hc) in *. clear Hn Hneg.
    generalize dependent (IZR (Z.sqrt (SCALE * SCALE - lo c * lo c))).
    generalize dependent (IZR SCALE). intros S. intros.
    generalize dependent (cos x * S). generalize dependent (sin x * S).
    intros X C. intros. split; [lra |].
    apply Rlt_le, square_lt_lt; [lra |]. nra.
  - specialize (Hn Hc). clear Hneg.
    generalize dependent (IZR (Z.sqrt (SCALE * SCALE - lo c * lo c))).
    generalize dependent (IZR (Z.sqrt (SCALE * SCALE - hi c * hi c))).
    generalize dependent (IZR SCALE). intros S. intros.
    generalize dependent (cos x * S). generalize dependent (sin x * S).
    intros X C. intros. split.
    + apply square_le_le; [lra |]. nra.
    + apply Rlt_le, square_lt_lt; [lra |]. nra.
Qed.

Lemma half_angle_iter_sound (k : nat) :
  nonneg_encloses (Nat.iter k half_angle_cos (mkI 0 0)) (cos (PI / 2 / 2 ^ k)).
Proof.
  induction k as [| k IH].
  - cbn [Nat.iter pow]. replace (PI / 2 / 1) with (PI / 2) by field.
    rewrite cos_PI2. unfold nonneg_encloses, encloses.
    rewrite Rmult_0_l. change (Nat.iter 0 half_angle_cos (mkI 0 0)) with (mkI 0 0).
    cbn [lo hi]. split; [lia | lra].
  - rewrite Nat.iter_succ. apply half_angle_cos_sound.
    + replace (2 * (PI / 2 / 2 ^ S k)) with (PI / 2 / 2 ^ k); [exact IH |].
      cbn [pow]. field. apply pow_nonzero. lra.
    + pose proof PI_RGT_0 as Hpi.
      assert (Hp : 1 <= 2 ^ S k) by (apply pow_R1_Rle; lra).
      assert (Hq : 0 < / 2 ^ S k <= 1).
      { split; [apply Rinv_0_lt_compat; lra |].
        rewrite <- Rinv_1. apply Rinv_le_contravar; lra. }
      apply cos_ge_0; unfold Rdiv; nra.
Qed.

Lemma unit_cos_sound : nonneg_encloses unit_cos (cos unit_angle).
Proof.
  replace unit_angle with (PI / 2 / 2 ^ 8) by (unfold unit_angle; field).
  exact (half_angle_iter_sound 8).
Qed.

Lemma unit_angle_bounds : 0 < unit_angle /\ 256 * unit_angle = PI / 2.
Proof.
  unfold unit_angle. pose proof PI_RGT_0. split; [lra | field].
Qed.

Lemma unit_sin_sound : nonneg_encloses unit_sin (sin unit_angle).
Proof.
  change unit_sin with (sin_of_cos unit_cos).
  apply sin_of_cos_sound; [exact unit_cos_sound |].
  destruct unit_angle_bounds as [H1 H2]. pose proof PI_RGT_0.
  apply sin_ge_0; lra.
Qed.

Lemma rotate_sound (sc : interval * interval) (x : R) :
  nonneg_encloses (fst sc) (sin x) ->
  nonneg_encloses (snd sc) (cos x) ->
  0 <= cos (x + unit_angle) ->
  nonneg_encloses (fst (rotate sc)) (sin (x + unit_angle)) /\
  nonneg_encloses (snd (rotate sc)) (cos (x + unit_angle)).
Proof.
  destruct sc as [s c]. cbn [fst snd].
  intros [Hs0 [Hsl Hsu]] [Hc0 [Hcl Hcu]] Hpos.
  destruct unit_cos_sound as [Huc0 [Hucl Hucu]].
  destruct unit_sin_sound as [Hus0 [Husl Husu]].
  pose proof IZR_SCALE_pos as HS.
  assert (HSZ : (0 < SCALE)%Z) by reflexivity.
  unfold rotate, nonneg_encloses, encloses. cbn [fst snd lo hi].
  rewrite sin_plus, cos_plus.
  pose proof (Zdiv_R (lo s * lo unit_cos + lo c * lo unit_sin) SCALE HSZ) as [D1 _].
  pose proof (Zdiv_R (hi s * hi unit_cos + hi c * hi unit_sin) SCALE HSZ) as [_ D2].
  pose proof (Zdiv_R (lo c * lo unit_cos - hi s * hi unit_sin) SCALE HSZ) as [D3 _].
  pose proof (Zdiv_R (hi c * hi unit_cos - lo s * lo unit_sin) SCALE HSZ) as [_ D4].
  rewrite ?plus_IZR, ?minus_IZR, ?mult_IZR in D1.
  rewrite ?plus_IZR, ?minus_IZR, ?mult_IZR in D2.
  rewrite ?plus_IZR, ?minus_IZR, ?mult_IZR in D3.
  rewrite ?plus_IZR, ?minus_IZR, ?mult_IZR in D4.
  rewrite !plus_IZR.
  apply IZR_le in Hs0, Hc0, Huc0, Hus0.
  assert (Hmax : IZR (Z.max 0 ((lo c * lo unit_cos - hi s * hi unit_sin) / SCALE))
                 = Rmax 0 (IZR ((lo c * lo unit_cos - hi s * hi unit_sin) / SCALE))).
  { unfold Rmax. destruct (Rle_dec 0 _) as [H | H].
    - apply le_IZR in H. rewrite Z.max_r by exact H. reflexivity.
    - rewrite Z.max_l; [reflexivity |].
      apply Rnot_le_lt, lt_IZR in H. lia. }
  rewrite Hmax. clear Hmax.
  rewrite cos_plus in Hpos.
  assert (Hnn : (0 <= (lo s * lo unit_cos + lo c * lo unit_sin) / SCALE)%Z).
  { apply Z.div_pos; [| exact HSZ].
    apply le_IZR in Hs0, Hc0, Huc0, Hus0.
    apply Z.add_nonneg_nonneg; apply Z.mul_nonneg_nonneg; assumption. }
  generalize dependent (IZR ((lo s * lo unit_cos + lo c * lo unit_sin) / SCALE)).
  generalize dependent (IZR ((hi s * hi unit_cos + hi c * hi unit_sin) / SCALE)).
  generalize dependent (IZR ((lo c * lo unit_cos - hi s * hi unit_sin) / SCALE)).
  generalize dependent (IZR ((hi c * hi unit_cos - lo s * lo unit_sin) / SCALE)).
  generalize dependent (IZR (lo s)). generalize dependent (IZR (hi s)).
  generalize dependent (IZR (lo c)). generalize dependent (IZR (hi c)).
  generalize dependent (IZR (lo unit_cos)). generalize dependent (IZR (hi unit_cos)).
  generalize dependent (IZR (lo unit_sin)). generalize dependent (IZR (hi unit_sin)).
  generalize dependent (IZR SCALE). intros S; intros.
  replace ((sin x * cos unit_angle + cos x * sin unit_angle) * S * S)
    with ((sin x * S) * (cos unit_angle * S) + (cos x * S) * (sin unit_angle * S)) in *
    by ring.
  assert (E1 : (sin x * cos unit_angle + cos x * sin unit_angle) * S * S
               = (sin x * S) * (cos unit_angle * S) + (cos x * S) * (sin unit_angle * S))
    by ring.
  assert (E2 : (cos x * cos unit_angle - sin x * sin unit_angle) * S * S
               = (cos x * S) * (cos unit_angle * S) - (sin x * S) * (sin unit_angle * S))
    by ring.
  assert (Hpos' : 0 <= (cos x * cos unit_angle - sin x * sin unit_angle) * S) by nra.
  generalize dependent ((sin x * cos unit_angle + cos x * sin unit_angle) * S).
  generalize dependent ((cos x * cos unit_angle - sin x * sin unit_angle) * S).
  generalize dependent (sin x * S). generalize dependent (cos x * S).
  generalize dependent (sin unit_angle * S). generalize dependent (cos unit_angle * S).
  intros UC US C X C' S'. intros.
  split; split.
  - exact Hnn.
  - split.
    + apply Rmult_le_reg_r with S; [exact HS |]. nra.
    + apply Rlt_le, Rmult_lt_reg_r with S; [exact HS |]. nra.
  - apply Z.le_max_l.
  - split.
    + apply Rmax_lub; [lra |].
      apply Rmult_le_reg_r with S; [exact HS |]. nra.
    + apply Rlt_le, Rmult_lt_reg_r with S; [exact HS |]. nra.
Qed.

Lemma sin_cos_from_sound (n : nat) :
  forall (sc : interval * interval) (x : R),
    nonneg_encloses (fst sc) (sin x) ->
    nonneg_encloses (snd sc) (cos x) ->
    0 <= x -> x + INR n * unit_angle <= PI / 2 + unit_angle ->
    forall j d, (j < n)%nat ->
      nonneg_encloses (fst (nth j (sin_cos_from n sc) d)) (sin (x + INR j * unit_angle)) /\
      nonneg_encloses (snd (nth j (sin_cos_from n sc) d)) (cos (x + INR j * unit_angle)).
Proof.
  destruct unit_angle_bounds as [Ha _].
  induction n as [| n IH]; intros sc x Hs Hc Hx Hn j d Hj; [lia |].
  rewrite S_INR in Hn.
  destruct j as [| j]; cbn [sin_cos_from nth].
  - cbn [INR]. rewrite Rmult_0_l, Rplus_0_r. split; assumption.
  - assert (Hn1 : 1 <= INR n).
    { change 1 with (INR 1). apply le_INR. lia. }
    assert (Hxa : x + unit_angle <= PI / 2) by nra.
    destruct (rotate_sound sc x Hs Hc) as [Hs' Hc'].
    { apply cos_ge_0; [| exact Hxa]. pose proof PI_RGT_0. lra. }
    rewrite S_INR.
    replace (x + (INR j + 1) * unit_angle) with (x + unit_angle + INR j * unit_angle) by ring.
    apply IH; try assumption; [lra | lra | lia].
Qed.

Lemma sin_cos_table_unfold :
  sin_cos_table = sin_cos_from 257 (mkI 0 0, mkI SCALE SCALE).
Proof. vm_compute. reflexivity. Qed.

Lemma sin_cos_at_sound (j : nat) :
  (j <= 256)%nat ->
  nonneg_encloses (fst (sin_cos_at j)) (sin (INR j * unit_angle)) /\
  nonneg_encloses (snd (sin_cos_at j)) (cos (INR j * unit_angle)).
Proof.
  intros Hj. unfold sin_cos_at. rewrite sin_cos_table_unfold.
  destruct unit_angle_bounds as [Ha H256].
  replace (INR j * unit_angle) with (0 + INR j * unit_angle) by ring.
  apply sin_cos_from_sound; cbn [fst snd].
  - rewrite sin_0. unfold nonneg_encloses, encloses. cbn [lo hi]. split; [lia | lra].
  - rewrite cos_0. unfold nonneg_encloses, encloses. cbn [lo hi].
    split; [apply Z.lt_le_incl; reflexivity | lra].
  - lra.
  - replace (INR 257) with (256 + 1); [lra |].
    rewrite INR_IZR_INZ. change (Z.of_nat 257) with 257%Z. lra.
  - lia.
Qed.

Lemma INR_to_nat (m : Z) : (0 <= m)%Z -> INR (Z.to_nat m) = IZR m.
Proof. intros H. rewrite INR_IZR_INZ, Z2Nat.id by exact H. reflexivity. Qed.

Lemma neg_interval_sound (I : interval) (x : R) :
  encloses I x -> encloses (neg_interval I) (- x).
Proof. unfold encloses, neg_interval. cbn [lo hi]. rewrite !opp_IZR. lra. Qed.

(** [sin_at] is sound on the whole circle. *)
Lemma sin_at_sound (m : Z) :
  (0 <= m < 1024)%Z -> encloses (sin_at m) (sin (IZR m * unit_angle)).
Proof.
  intros Hm. unfold sin_at.
  assert (Hpi : 512 * unit_angle = PI) by (unfold unit_angle; field).
  destruct (Z.leb_spec m 256) as [H1 | H1];
    [| destruct (Z.leb_spec m 512) as [H2 | H2];
       [| destruct (Z.leb_spec m 768) as [H3 | H3]]].
  - rewrite <- (INR_to_nat m) by lia. apply sin_cos_at_sound. lia.
  - replace (IZR m * unit_angle) with (PI - IZR (512 - m) * unit_angle)
      by (rewrite minus_IZR; lra).
    rewrite sin_PI_x, <- (INR_to_nat (512 - m)) by lia. apply sin_cos_at_sound. lia.
  - replace (IZR m * unit_angle) with (IZR (m - 512) * unit_angle + PI)
      by (rewrite minus_IZR; lra).
    rewrite neg_sin, <- (INR_to_nat (m - 512)) by lia.
    apply neg_interval_sound, sin_cos_at_sound. lia.
  - replace (IZR m * unit_angle) with (- (IZR (1024 - m) * unit_angle) + 2 * INR 1 * PI)
      by (rewrite minus_IZR; cbn [INR]; lra).
    rewrite sin_period, sin_neg, <- (INR_to_nat (1024 - m)) by lia.
    apply neg_interval_sound, sin_cos_at_sound. lia.
Qed.

Lemma sample_phase (N i : Z) :
  In N valid_SAMPLE_COUNT ->
  2 * PI * IZR i / IZR N = IZR (i * (1024 / N)) * unit_angle.
Proof.
  unfold valid_SAMPLE_COUNT, unit_angle. cbn [In].
  intros [<- | [<- | [<- | []]]]; rewrite mult_IZR.
  - change (1024 / 256)%Z with 4%Z. field.
  - change (1024 / 512)%Z with 2%Z. field.
  - change (1024 / 1024)%Z with 1%Z. field.
Qed.

Lemma Rround_spec (x : R) (v : Z) :
  IZR v - / 2 <= x < IZR v + / 2 -> Rround x = v.
Proof.
  intros [Hl Hu]. unfold Rround. symmetry. apply Int_part_spec. lra.
Qed.

Lemma sample_ok_sound (N i v : Z) :
  In N valid_SAMPLE_COUNT -> (0 <= i < N)%Z ->
  sample_ok N i v = true -> spec_sample N i = v.
Proof.
  intros HN Hi Hok. unfold sample_ok in Hok.
  apply andb_true_iff in Hok. destruct Hok as [Hl Hu].
  apply Z.leb_le, IZR_le in Hl. apply Z.ltb_lt, IZR_lt in Hu.
  rewrite !mult_IZR, !minus_IZR, !mult_IZR in Hl, Hu.
  assert (Hm : (0 <= i * (1024 / N) < 1024)%Z).
  { unfold valid_SAMPLE_COUNT in HN. cbn [In] in HN.
    destruct HN as [<- | [<- | [<- | []]]].
    - change (1024 / 256)%Z with 4%Z. lia.
    - change (1024 / 512)%Z with 2%Z. lia.
    - change (1024 / 1024)%Z with 1%Z. lia. }
  destruct (sin_at_sound _ Hm) as [Hlo Hhi].
  unfold spec_sample, spec_sine_value. rewrite (sample_phase N i HN).
  pose proof IZR_SCALE_pos as HS.
  generalize dependent (sin (IZR (i * (1024 / N)) * unit_angle)). intros y; intros.
  generalize dependent (IZR (lo (sin_at (i * (1024 / N))))).
  generalize dependent (IZR (hi (sin_at (i * (1024 / N))))).
  generalize dependent (IZR SCALE). intros S; intros.
  apply Rround_spec. split.
  - assert ((2 * IZR v - 256) <= 255 * y); [| lra].
    apply Rmult_le_reg_r with S; [exact HS |]. nra.
  - assert (255 * y < (2 * IZR v - 254)); [| lra].
    apply Rmult_lt_reg_r with S; [exact HS |]. nra.
Qed.

Lemma table_ok_sound (N : Z) (tbl : list Z) :
  In N valid_SAMPLE_COUNT -> Z.of_nat (List.length tbl) = N ->
  table_ok N tbl = true ->
  forall i, (0 <= i < N)%Z -> nth (Z.to_nat i) tbl 0%Z = spec_sample N i.
Proof.
  intros HN Hlen Hok i Hi. unfold table_ok in Hok.
  rewrite forallb_forall in Hok.
  specialize (Hok (Z.to_nat i)). rewrite Z2Nat.id in Hok by lia.
  symmetry. apply sample_ok_sound; try assumption.
  apply Hok, in_seq. lia.
Qed.

End SineEnclosures.

Lemma tables_ok :
  table_ok 256 SINE_FULL_WAVE_256 = true /\
  table_ok 512 SINE_FULL_WAVE_512 = true /\
  table_ok 1024 SINE_FULL_WAVE_1024 = true.
Proof. repeat split; vm_compute; reflexivity. Qed.

Lemma Rround_nearest (x : R) : (Rabs (x - IZR (Rround x)) <= / 2)%R.
Proof.
  unfold Rround. destruct (base_Int_part (x + / 2)) as [H1 H2].
  apply Rabs_le. lra.
Qed.

Lemma spec_sine_value_ties (N : Z) :
  In N valid_SAMPLE_COUNT ->
  (spec_sine_value N 0 = 127.5 /\ spec_sine_value N (N / 2) = 127.5)%R.
Proof.
  intros HN. unfold spec_sine_value. split.
  - replace (2 * PI * 0 / IZR N)%R with 0%R by (unfold Rdiv; ring).
    rewrite sin_0. ring.
  - replace (2 * PI * IZR (N / 2) / IZR N)%R with PI.
    + rewrite sin_PI. ring.
    + unfold valid_SAMPLE_COUNT in HN. cbn [In] in HN.
      destruct HN as [<- | [<- | [<- | []]]].
      * change (256 / 2) with 128. field.
      * change (512 / 2) with 256. field.
      * change (1024 / 2) with 512. field.
Qed.

(** C5.  In every supported build, entry [i] of the table is
    [127.5 + 127.5 * sin (2 * PI * i / SAMPLE_COUNT)] rounded to the nearest
    integer (halves upwards), for every [i] below [SAMPLE_COUNT], and so
    within one half of the exact value.  At [i = 0] and
    [i = SAMPLE_COUNT / 2] the exact value is the half 127.5 and the entry
    is 128. *)
Theorem C5_table_is_rounded_sine (N : Z) (tbl : list Z) :
  SINE_FULL_WAVE_for N = Built tbl ->
  (forall i, 0 <= i < N ->
     nth (Z.to_nat i) tbl 0 = spec_sample N i /\
     (Rabs (spec_sine_value N i - IZR (nth (Z.to_nat i) tbl 0%Z)) <= / 2)%R) /\
  (spec_sine_value N 0 = 127.5)%R /\
  (spec_sine_value N (N / 2) = 127.5)%R /\
  nth (Z.to_nat 0) tbl 0 = 128 /\
  nth (Z.to_nat (N / 2)) tbl 0 = 128.
Proof.
  intros Hb.
  assert (HN : In N valid_SAMPLE_COUNT).
  { apply SINE_FULL_WAVE_for_valid. eauto. }
  assert (Hlen : Z.of_nat (List.length tbl) = N).
  { destruct (SINE_FULL_WAVE_for_pow2 N tbl Hb) as (_ & _ & _ & H). exact H. }
  assert (Hok : table_ok N tbl = true).
  { destruct tables_ok as (H256 & H512 & H1024).
    destruct (SINE_FULL_WAVE_for_cases N tbl Hb) as [[-> ->] | [[-> ->] | [-> ->]]];
      assumption. }
  destruct (spec_sine_value_ties N HN) as [T0 T1].
  split; [| split; [exact T0 | split; [exact T1 |]]].
  - intros i Hi.
    pose proof (table_ok_sound N tbl HN Hlen Hok i Hi) as E.
    split; [exact E |]. rewrite E. apply Rround_nearest.
  - destruct (SINE_FULL_WAVE_for_cases N tbl Hb) as [[-> ->] | [[-> ->] | [-> ->]]];
      split; reflexivity.
Qed.

Lemma C5_witness :
  nth (Z.to_nat 37) SINE_FULL_WAVE_256 0 = spec_sample 256 37 /\
  (Rabs (spec_sine_value 256 37 - IZR (nth (Z.to_nat 37) SINE_FULL_WAVE_256 0%Z)) <= / 2)%R.
Proof.
  apply (C5_table_is_rounded_sine 256 SINE_FULL_WAVE_256).
  - reflexivity.
  - lia.
Defined.

(** * Further properties of the sketch *)

(** ** [setup] *)

Lemma setup_as_statements (cs : clock_select) (s : avr) :
  setup cs s = exec_statements (setup_statements cs) s.
Proof. destruct cs as [[cs22 cs21] cs20]. reflexivity. Qed.

(** X1.  Whatever the registers held before, [setup] leaves [OCR2A] at 0,
    [TCCR2A] with exactly [COM2A1], [WGM21] and [WGM20] set, [TCCR2B] with
    nothing but the selected clock bits, [TIMSK2] with exactly [TOIE2] set
    and interrupts enabled; in [DDRB] it sets [PORTB3] and keeps every other
    bit, and it does not touch the handler's index. *)
Theorem X1_setup_configuration (cs : clock_select) (s : avr) :
  OCR2A (setup cs s) = 0 /\
  (forall b, TCCR2A (setup cs s) b =
             match b with COM2A1 | WGM21 | WGM20 => true | _ => false end) /\
  (forall b, TCCR2B (setup cs s) b =
             match b with
             | CS22 => fst (fst cs) | CS21 => snd (fst cs) | CS20 => snd cs
             | _ => false
             end) /\
  (forall b, TIMSK2 (setup cs s) b = match b with TOIE2 => true | _ => false end) /\
  (forall b, DDRB (setup cs s) b = match b with PORTB3 => true | _ => DDRB s b end) /\
  SREG_I (setup cs s) = true /\
  ISR_i (setup cs s) = ISR_i s.
Proof.
  destruct cs as [[[|] [|]] [|]];
    (repeat split; try reflexivity; intros b; destruct b; reflexivity).
Qed.

(** X2.  The interrupt mask is rewritten inside the [cli()]/[sei()] pair:
    at every point of [setup] at which interrupts are enabled, [TIMSK2] is
    either still what it was on entry or already has exactly [TOIE2] set;
    the cleared mask between the two writes is never visible with
    interrupts on. *)
Theorem X2_setup_mask_written_with_interrupts_off (cs : clock_select) (k : nat) (s : avr) :
  SREG_I (setup_prefix cs k s) = true ->
  TIMSK2 (setup_prefix cs k s) = TIMSK2 s \/
  (forall b, TIMSK2 (setup_prefix cs k s) b = match b with TOIE2 => true | _ => false end).
Proof.
  destruct cs as [[cs22 cs21] cs20].
  do 14 (destruct k as [| k];
         [cbn; intros H;
          first [discriminate H
                | left; reflexivity
                | right; intros b; destruct b; reflexivity] |]).
  unfold setup_prefix. rewrite firstn_all2 by (cbn; lia).
  cbn. intros _. right. intros b; destruct b; reflexivity.
Qed.

Lemma X2_witness :
  TIMSK2 (setup_prefix (false, false, true) 14 power_on) = TIMSK2 power_on \/
  (forall b, TIMSK2 (setup_prefix (false, false, true) 14 power_on) b =
             match b with TOIE2 => true | _ => false end).
Proof.
  apply (X2_setup_mask_written_with_interrupts_off (false, false, true) 14 power_on).
  reflexivity.
Defined.

Lemma clock_divider_small (cs : clock_select) (d : Z) :
  clock_divider cs = Some d -> 1 <= d <= 1024.
Proof. destruct cs as [[[|] [|]] [|]]; cbn; intros [= <-]; lia. Qed.

(** X3.  The clock-select chain and the divider table of the comment are
    inverse to each other on the value the preprocessor has for
    [PRESCALER]: the chain selects the bits [cs] exactly when [cs] stands
    for the divider [PRESCALER] modulo [2^64], which for a [PRESCALER] from
    [-2^63] up to [2^64 - 1] is [PRESCALER] itself.  So two such prescalers
    never share a setting, every setting but "no clock source" is reached,
    and no prescaler stops the timer. *)
Theorem X3_clock_select_round_trip (P : Z) (cs : clock_select) :
  (PRESCALER_bits (preprocessor_value P) = Built cs <->
   clock_divider cs = Some (preprocessor_value P)) /\
  (preprocessor_range P ->
   (PRESCALER_bits (preprocessor_value P) = Built cs <-> clock_divider cs = Some P)) /\
  (clock_divider cs = None <-> cs = (false, false, false)) /\
  PRESCALER_bits (preprocessor_value P) <> Built (false, false, false).
Proof.
  assert (Hback : forall v, clock_divider cs = Some v -> PRESCALER_bits v = Built cs).
  { intros v. destruct cs as [[[|] [|]] [|]]; cbn; intros [= <-]; reflexivity. }
  assert (Hiff : PRESCALER_bits (preprocessor_value P) = Built cs <->
                 clock_divider cs = Some (preprocessor_value P)).
  { split; [apply PRESCALER_bits_divider | apply Hback]. }
  split; [exact Hiff | split; [| split]].
  - intros Hr. rewrite Hiff.
    unfold preprocessor_range, preprocessor_value in *.
    assert (H64 : 2 ^ 64 = 18446744073709551616) by reflexivity.
    assert (H63 : 2 ^ 63 = 9223372036854775808) by reflexivity.
    destruct (Z.neg_nonneg_cases P) as [Hneg | Hpos].
    + assert (E : P mod 2 ^ 64 = P + 2 ^ 64).
      { symmetry. apply (Z.mod_unique P (2 ^ 64) (-1)); lia. }
      rewrite E. split; intros H; apply clock_divider_small in H; lia.
    + rewrite Z.mod_small by lia. reflexivity.
  - destruct cs as [[[|] [|]] [|]]; cbn; split; congruence.
  - intros H. apply PRESCALER_bits_divider in H. discriminate H.
Qed.

(** ** The handler and the foreground, for any table *)

(** X4.  No run of overflow events and loop iterations, over any table,
    changes a configuration register: the timer mode, the clock select and
    so the divider, the pin direction, the interrupt mask and the interrupt
    flag are after the run what they were before it. *)
Theorem X4_run_keeps_configuration
  (N : Z) (tbl : list Z) (evs : list event) (s s' : avr) (out : list Z) :
  run N tbl evs s = Some (out, s') ->
  same_frame s s' /\
  clock_divider (TCCR2B_clock_select s') = clock_divider (TCCR2B_clock_select s).
Proof.
  assert (Hgen : forall evs s s' out,
             run N tbl evs s = Some (out, s') -> same_frame s s').
  { clear. induction evs as [| [|] evs IH]; intros s s' out H.
    - cbn in H. injection H as <- <-. unfold same_frame. auto 10.
    - cbn [run] in H. rewrite ISR_unfold in H.
      destruct (ISR_i s <? 0); [discriminate |].
      destruct (nth_error tbl (Z.to_nat (ISR_i s))) as [v |]; [| discriminate].
      match type of H with
      | match run _ _ _ ?s1 with _ => _ end = _ =>
          destruct (run N tbl evs s1) as [[o t] |] eqn:E; [| discriminate];
          apply IH in E
      end.
      injection H as <- <-. exact E.
    - cbn [run] in H. unfold loop in H. apply IH in H. exact H. }
  intros H. pose proof (Hgen evs s s' out H) as Hf.
  split; [exact Hf |].
  unfold TCCR2B_clock_select. destruct Hf as (_ & -> & _). reflexivity.
Qed.

Lemma X4_witness :
  same_frame (startup (false, true, false) power_on)
    (mkAvr 131 (TCCR2A (startup (false, true, false) power_on))
       (TCCR2B (startup (false, true, false) power_on))
       (DDRB (startup (false, true, false) power_on))
       (TIMSK2 (startup (false, true, false) power_on)) true 2) /\
  clock_divider
    (TCCR2B_clock_select
       (mkAvr 131 (TCCR2A (startup (false, true, false) power_on))
          (TCCR2B (startup (false, true, false) power_on))
          (DDRB (startup (false, true, false) power_on))
          (TIMSK2 (startup (false, true, false) power_on)) true 2))
  = clock_divider (TCCR2B_clock_select (startup (false, true, false) power_on)).
Proof.
  apply (X4_run_keeps_configuration 256 SINE_FULL_WAVE_256
           [Overflow; LoopIteration; Overflow]
           (startup (false, true, false) power_on) _ [128; 131]).
  vm_compute. reflexivity.
Defined.

Lemma land_le_r (a m : Z) : 0 <= m -> Z.land a m <= m.
Proof.
  intros Hm.
  assert (H : Z.ldiff (Z.land a m) m = 0).
  { apply Z.bits_inj'. intros n Hn.
    rewrite Z.ldiff_spec, Z.land_spec, Z.bits_0.
    destruct (Z.testbit a n), (Z.testbit m n); reflexivity. }
  pose proof (Z.sub_nocarry_ldiff m (Z.land a m) H) as E.
  assert (0 <= Z.ldiff m (Z.land a m)) by (apply Z.ldiff_nonneg; lia).
  lia.
Qed.

Section AnySampleCount.

Variable N : Z.
Variable tbl : list Z.
Hypothesis HN : 1 <= N <= 32768.
Hypothesis Hlen : N <= Z.of_nat (List.length tbl).

Lemma ISR_any_count (s : avr) :
  0 <= ISR_i s < N ->
  ISR_TIMER2_OVF N tbl s =
  Some (tt, mkAvr (nth (Z.to_nat (ISR_i s)) tbl 0)
              (TCCR2A s) (TCCR2B s) (DDRB s) (TIMSK2 s) (SREG_I s)
              (Z.land (ISR_i s + 1) (N - 1))) /\
  0 <= Z.land (ISR_i s + 1) (N - 1) < N.
Proof.
  intros Hi.
  assert (Hb : 0 <= Z.land (ISR_i s + 1) (N - 1) < N).
  { split; [apply Z.land_nonneg; lia |].
    pose proof (land_le_r (ISR_i s + 1) (N - 1)). lia. }
  split; [| exact Hb].
  rewrite ISR_unfold.
  destruct (Z.ltb_spec (ISR_i s) 0) as [? | _]; [lia |].
  destruct (nth_error tbl (Z.to_nat (ISR_i s))) as [v |] eqn:Hnth.
  - rewrite (nth_error_nth tbl _ 0 Hnth). do 3 f_equal. unfold uint16_t.
    rewrite (Z.mod_small (ISR_i s + 1)) by lia. apply Z.mod_small. lia.
  - apply nth_error_None in Hnth. lia.
Qed.

Lemma overflow_events_any_count (n : nat) (s : avr) :
  0 <= ISR_i s < N ->
  exists out s',
    overflow_events N tbl n s = Some (out, s') /\
    0 <= ISR_i s' < N /\
    (exists l, entry_indices N tbl n s = Some l /\ Forall (fun i => 0 <= i < N) l).
Proof.
  revert s. induction n as [| n IH]; intros s Hi.
  - exists [], s. cbn. repeat split; try lia. exists []. auto.
  - destruct (ISR_any_count s Hi) as [Hstep Hnext].
    cbn [overflow_events entry_indices]. rewrite Hstep.
    match goal with
    | |- context [overflow_events N tbl n ?s1] =>
        destruct (IH s1 Hnext) as (out & s' & Hrun & Hr & l & Hl & Hall)
    end.
    rewrite Hrun, Hl. eexists _, s'. repeat split; try lia.
    eexists. split; [reflexivity |]. constructor; [lia | exact Hall].
Qed.

End AnySampleCount.

(** X5.  The handler is memory-safe for every sample count, a power of two
    or not: with a table of at least [SAMPLE_COUNT] entries and
    [1 <= SAMPLE_COUNT <= 32768], any number of invocations from an index
    below [SAMPLE_COUNT] succeeds, and every index they find on entry is
    below [SAMPLE_COUNT] again. *)
Theorem X5_mask_keeps_index_in_bounds (N : Z) (tbl : list Z) (n : nat) (s : avr) :
  1 <= N <= 32768 ->
  N <= Z.of_nat (List.length tbl) ->
  0 <= ISR_i s < N ->
  exists out s',
    overflow_events N tbl n s = Some (out, s') /\
    0 <= ISR_i s' < N /\
    (exists l, entry_indices N tbl n s = Some l /\ Forall (fun i => 0 <= i < N) l).
Proof.
  intros HN Hlen Hi. exact (overflow_events_any_count N tbl HN Hlen n s Hi).
Qed.

Lemma X5_witness :
  exists out s',
    overflow_events 6 [10; 20; 30; 40; 50; 60] 9 power_on = Some (out, s') /\
    0 <= ISR_i s' < 6 /\
    (exists l, entry_indices 6 [10; 20; 30; 40; 50; 60] 9 power_on = Some l /\
               Forall (fun i => 0 <= i < 6) l).
Proof.
  apply (X5_mask_keeps_index_in_bounds 6 [10; 20; 30; 40; 50; 60] 9 power_on).
  - lia.
  - cbn. lia.
  - cbn. lia.
Defined.

(** With [SAMPLE_COUNT = 2^b * (2q + 1)], the mask [SAMPLE_COUNT - 1] has
    its [b] low bits set and bit [b] clear: on arguments up to [2^b] it acts
    as reduction modulo [2^b]. *)
Lemma mask_low_bits (b q x : Z) :
  0 <= b -> 0 <= q -> 0 <= x <= 2 ^ b ->
  Z.land x (2 ^ b * (2 * q + 1) - 1) = x mod 2 ^ b.
Proof.
  intros Hb Hq Hx.
  assert (Hp : 0 < 2 ^ b) by (apply Z.pow_pos_nonneg; lia).
  assert (Hp1 : 2 ^ (b + 1) = 2 * 2 ^ b) by (rewrite Z.pow_add_r by lia; lia).
  assert (Hm : (2 ^ b * (2 * q + 1) - 1) mod 2 ^ (b + 1) = Z.ones b).
  { rewrite Z.ones_equiv.
    replace (2 ^ b * (2 * q + 1) - 1) with (Z.pred (2 ^ b) + q * 2 ^ (b + 1)) by lia.
    rewrite Z_mod_plus_full. apply Z.mod_small. lia. }
  rewrite <- (Z.mod_small x (2 ^ (b + 1))) at 1 by lia.
  rewrite <- Z.land_ones by lia.
  rewrite <- Z.land_assoc, (Z.land_comm (Z.ones (b + 1))).
  rewrite (Z.land_ones _ (b + 1)) by lia.
  rewrite Hm. apply Z.land_ones. exact Hb.
Qed.

(** X6.  What the mask does when [SAMPLE_COUNT] is not a power of two.
    Write [SAMPLE_COUNT = 2^b * (2q + 1)]: from index 0 the handler walks the
    indices modulo [2^b], the largest power of two dividing [SAMPLE_COUNT].
    Every index it finds is below [2^b]; with [q > 0] that is less than
    [SAMPLE_COUNT], so the entries from [2^b] on are never put out (for an
    odd [SAMPLE_COUNT] the index never leaves 0). *)
Theorem X6_mask_walks_largest_power_of_two
  (b q N : Z) (tbl : list Z) (n : nat) (s : avr) :
  0 <= b -> 0 <= q -> N = 2 ^ b * (2 * q + 1) -> N <= 32768 ->
  N <= Z.of_nat (List.length tbl) ->
  ISR_i s = 0 ->
  entry_indices N tbl n s = Some (cyclic_indices (2 ^ b) 0 n) /\
  Forall (fun i => 0 <= i < 2 ^ b) (cyclic_indices (2 ^ b) 0 n) /\
  (0 < q -> 2 ^ b < N) /\
  (q = 0 -> 2 ^ b = N).
Proof.
  intros Hb Hq HN Hmax Hlen Hs.
  assert (Hp : 0 < 2 ^ b) by (apply Z.pow_pos_nonneg; lia).
  assert (HN1 : 1 <= N <= 32768) by nia.
  assert (Hle : 2 ^ b <= N) by nia.
  split; [| split; [| split; [nia | intros ->; lia]]].
  - assert (Hgen : forall t, 0 <= ISR_i t < 2 ^ b ->
                     entry_indices N tbl n t = Some (cyclic_indices (2 ^ b) (ISR_i t) n));
      [| rewrite (Hgen s), Hs by lia; reflexivity].
    clear s Hs. induction n as [| n IH]; intros s Hi; [reflexivity |].
    cbn [entry_indices].
    destruct (ISR_any_count N tbl HN1 Hlen s ltac:(lia)) as [Hstep _].
    rewrite Hstep, cyclic_indices_S by exact Hi.
    assert (E : Z.land (ISR_i s + 1) (N - 1) = (ISR_i s + 1) mod 2 ^ b).
    { rewrite HN. apply mask_low_bits; lia. }
    rewrite IH.
    + cbn [ISR_i]. rewrite E. reflexivity.
    + cbn [ISR_i]. rewrite E. apply Z.mod_pos_bound. exact Hp.
  - unfold cyclic_indices. apply Forall_forall. intros i Hin.
    apply in_map_iff in Hin. destruct Hin as (j & <- & _).
    apply Z.mod_pos_bound. exact Hp.
Qed.

Lemma X6_witness :
  entry_indices 6 [10; 20; 30; 40; 50; 60] 5 power_on = Some (cyclic_indices (2 ^ 1) 0 5) /\
  Forall (fun i => 0 <= i < 2 ^ 1) (cyclic_indices (2 ^ 1) 0 5) /\
  (0 < 1 -> 2 ^ 1 < 6) /\
  (1 = 0 -> 2 ^ 1 = 6).
Proof.
  apply (X6_mask_walks_largest_power_of_two 1 1 6 [10; 20; 30; 40; 50; 60] 5 power_on).
  - lia.
  - lia.
  - reflexivity.
  - lia.
  - cbn. lia.
  - reflexivity.
Defined.

(** ** The output sequence of a supported build *)

Lemma nth_output_spec (N : Z) (tbl : list Z) (k : nat) (s : avr) :
  pow2_table N tbl -> ISR_i s = 0 ->
  nth_output N tbl k s = Some (entry tbl (Z.of_nat k mod N)).
Proof.
  intros Hp Hs. unfold nth_output.
  pose proof (pow2_table_pos N tbl Hp) as HN.
  destruct (overflow_events_spec N tbl Hp (S k) s ltac:(lia)) as (s' & Hrun & _).
  rewrite Hrun, Hs. unfold cyclic_wave, cyclic_indices.
  rewrite map_map.
  rewrite (nth_error_map (fun j => nth (Z.to_nat ((0 + Z.of_nat j) mod N)) tbl 0)).
  rewrite (nth_error_nth' _ 0%nat) by (rewrite length_seq; lia).
  rewrite seq_nth by lia. reflexivity.
Qed.

(** The first and the last index holding the peak value 255: a shift that
    maps the table onto itself would have to map this run onto itself. *)
Lemma peak_run_breaks_every_shift :
  forallb (fun p => negb (entry SINE_FULL_WAVE_256 ((61 + p) mod 256) =? 255)
                    || negb (entry SINE_FULL_WAVE_256 ((67 + p) mod 256) =? 255))
          (map Z.of_nat (seq 1 255)) = true /\
  forallb (fun p => negb (entry SINE_FULL_WAVE_512 ((121 + p) mod 512) =? 255)
                    || negb (entry SINE_FULL_WAVE_512 ((135 + p) mod 512) =? 255))
          (map Z.of_nat (seq 1 511)) = true /\
  forallb (fun p => negb (entry SINE_FULL_WAVE_1024 ((242 + p) mod 1024) =? 255)
                    || negb (entry SINE_FULL_WAVE_1024 ((270 + p) mod 1024) =? 255))
          (map Z.of_nat (seq 1 1023)) = true.
Proof. repeat split; vm_compute; reflexivity. Qed.

Lemma shift_breaks (N a c : Z) (tbl : list Z) (p : Z) :
  0 < N -> 0 <= a < N -> 0 <= c < N -> 0 < p < N ->
  entry tbl a = 255 -> entry tbl c = 255 ->
  forallb (fun p => negb (entry tbl ((a + p) mod N) =? 255)
                    || negb (entry tbl ((c + p) mod N) =? 255))
          (map Z.of_nat (seq 1 (Z.to_nat (N - 1)))) = true ->
  exists k, 0 <= k < N /\ entry tbl ((k + p) mod N) <> entry tbl (k mod N).
Proof.
  intros HN Ha Hc Hp Ea Ec Hall.
  rewrite forallb_forall in Hall. specialize (Hall p).
  assert (Hin : In p (map Z.of_nat (seq 1 (Z.to_nat (N - 1))))).
  { apply in_map_iff. exists (Z.to_nat p). split; [lia | apply in_seq; lia]. }
  apply Hall, orb_true_iff in Hin.
  destruct Hin as [H | H]; apply negb_true_iff, Z.eqb_neq in H.
  - exists a. rewrite (Z.mod_small a) by lia. split; [lia | congruence].
  - exists c. rewrite (Z.mod_small c) by lia. split; [lia | congruence].
Qed.

(** X7.  In a supported build started at index 0, the [k]-th overflow event
    (counting from 0) writes entry [k mod SAMPLE_COUNT], for every [k]; so
    the output repeats every [SAMPLE_COUNT] events, and with no shorter
    period: for every [p] strictly between 0 and [SAMPLE_COUNT] some event
    and the event [p] later write different values. *)
Theorem X7_output_period_is_SAMPLE_COUNT (N : Z) (tbl : list Z) (s : avr) :
  SINE_FULL_WAVE_for N = Built tbl ->
  ISR_i s = 0 ->
  (forall k, nth_output N tbl k s = Some (entry tbl (Z.of_nat k mod N))) /\
  (forall k, nth_output N tbl (k + Z.to_nat N) s = nth_output N tbl k s) /\
  (forall p, (0 < p < Z.to_nat N)%nat ->
     exists k, nth_output N tbl (k + p) s <> nth_output N tbl k s).
Proof.
  intros Hb Hs. pose proof (SINE_FULL_WAVE_for_pow2 N tbl Hb) as Hp.
  pose proof (pow2_table_pos N tbl Hp) as HN.
  split; [| split].
  - intros k. apply nth_output_spec; assumption.
  - intros k. rewrite !nth_output_spec by assumption. do 2 f_equal.
    rewrite Nat2Z.inj_add, Z2Nat.id by lia.
    rewrite <- Zplus_mod_idemp_r, Z.mod_same, Z.add_0_r by lia. reflexivity.
  - intros p Hpr.
    assert (Hex : exists k, 0 <= k < N /\
                    entry tbl ((k + Z.of_nat p) mod N) <> entry tbl (k mod N)).
    { destruct peak_run_breaks_every_shift as (H256 & H512 & H1024).
      destruct (SINE_FULL_WAVE_for_cases N tbl Hb) as [[-> ->] | [[-> ->] | [-> ->]]].
      - apply (shift_breaks 256 61 67);
          [lia | lia | lia | lia | reflexivity | reflexivity | exact H256].
      - apply (shift_breaks 512 121 135);
          [lia | lia | lia | lia | reflexivity | reflexivity | exact H512].
      - apply (shift_breaks 1024 242 270);
          [lia | lia | lia | lia | reflexivity | reflexivity | exact H1024]. }
    destruct Hex as (k & Hk & Hne).
    exists (Z.to_nat k). rewrite !nth_output_spec by assumption.
    rewrite Nat2Z.inj_add, Z2Nat.id by lia. congruence.
Qed.

Lemma X7_witness :
  nth_output 256 SINE_FULL_WAVE_256 300 power_on =
  Some (entry SINE_FULL_WAVE_256 (Z.of_nat 300 mod 256)).
Proof.
  refine (proj1 (X7_output_period_is_SAMPLE_COUNT 256 SINE_FULL_WAVE_256 power_on _ _)
            300%nat); reflexivity.
Defined.

Lemma table_entries_in_range (N : Z) (tbl : list Z) :
  SINE_FULL_WAVE_for N = Built tbl ->
  forall i, 0 <= i < N -> 0 <= nth (Z.to_nat i) tbl 0 <= register_max.
Proof.
  intros Hb i Hi.
  destruct (SINE_FULL_WAVE_for_pow2 N tbl Hb) as (_ & _ & _ & Hlen).
  apply in_register_range_spec.
  destruct tables_in_range as (H256 & H512 & H1024).
  assert (Hin : In (nth (Z.to_nat i) tbl 0) tbl) by (apply nth_In; lia).
  destruct (SINE_FULL_WAVE_for_cases N tbl Hb) as [[_ ->] | [[_ ->] | [_ ->]]].
  - exact (proj1 (forallb_forall _ _) H256 _ Hin).
  - exact (proj1 (forallb_forall _ _) H512 _ Hin).
  - exact (proj1 (forallb_forall _ _) H1024 _ Hin).
Qed.

Lemma last_cons_default {A : Type} (z : A) (l : list A) (d d' : A) :
  last (z :: l) d = last (z :: l) d'.
Proof.
  revert z. induction l as [| y l IH]; intros z; [reflexivity |].
  change (last (y :: l) d = last (y :: l) d'). apply IH.
Qed.

(** X8.  From start-up on, [OCR2A] always holds a value the 8-bit register
    can take: in a supported build, for every prescaler setting and every
    number of overflow events, each value written lies between 0 and 255,
    and so does the register afterwards (0 from [setup] before the first
    event). *)
Theorem X8_OCR2A_always_in_register_range
  (N : Z) (tbl : list Z) (cs : clock_select) (reset : avr) (k : nat) :
  SINE_FULL_WAVE_for N = Built tbl ->
  exists out s',
    overflow_events N tbl k (startup cs reset) = Some (out, s') /\
    Forall (fun v => 0 <= v <= register_max) out /\
    0 <= OCR2A s' <= register_max /\
    OCR2A s' = last out 0.
Proof.
  intros Hb. pose proof (SINE_FULL_WAVE_for_pow2 N tbl Hb) as Hp.
  pose proof (pow2_table_pos N tbl Hp) as HN.
  assert (Hgen : forall n s,
             0 <= ISR_i s < N -> 0 <= OCR2A s <= register_max ->
             exists out s',
               overflow_events N tbl n s = Some (out, s') /\
               Forall (fun v => 0 <= v <= register_max) out /\
               0 <= OCR2A s' <= register_max /\
               OCR2A s' = last out (OCR2A s)).
  { induction n as [| n IH]; intros s Hi Ho.
    - exists [], s. cbn. auto.
    - cbn [overflow_events]. rewrite (ISR_in_range N tbl Hp s Hi).
      pose proof (table_entries_in_range N tbl Hb (ISR_i s) Hi) as Hv.
      match goal with
      | |- context [overflow_events N tbl n ?s1] =>
          destruct (IH s1) as (out & s' & Hrun & Hall & Hr & Hlast);
          [cbn [ISR_i]; apply Z.mod_pos_bound; lia | cbn [OCR2A]; exact Hv |]
      end.
      rewrite Hrun. eexists _, s'. split; [reflexivity |].
      cbn [OCR2A] in *. split; [constructor; assumption | split; [exact Hr |]].
      rewrite Hlast. destruct out as [| z out]; [reflexivity |].
      change (last (nth (Z.to_nat (ISR_i s)) tbl 0 :: z :: out) (OCR2A s))
        with (last (z :: out) (OCR2A s)).
      apply last_cons_default. }
  assert (H0 : ISR_i (startup cs reset) = 0 /\ OCR2A (startup cs reset) = 0).
  { destruct cs as [[? ?] ?]. split; reflexivity. }
  destruct H0 as [Hi0 Ho0].
  destruct (Hgen k (startup cs reset)) as (out & s' & Hrun & Hall & Hr & Hlast).
  - lia.
  - rewrite Ho0. unfold register_max. lia.
  - exists out, s'. rewrite Ho0 in Hlast. auto.
Qed.

Lemma X8_witness :
  exists out s',
    overflow_events 512 SINE_FULL_WAVE_512 700 (startup (true, false, false) power_on)
      = Some (out, s') /\
    Forall (fun v => 0 <= v <= register_max) out /\
    0 <= OCR2A s' <= register_max /\
    OCR2A s' = last out 0.
Proof.
  apply (X8_OCR2A_always_in_register_range 512 SINE_FULL_WAVE_512
           (true, false, false) power_on 700).
  reflexivity.
Defined.

(** ** The shape of the tables *)

Lemma forallb_below (n : nat) (f : Z -> bool) :
  forallb (fun j => f (Z.of_nat j)) (seq 0 n) = true ->
  forall i, 0 <= i < Z.of_nat n -> f i = true.
Proof.
  intros H i Hi. rewrite forallb_forall in H.
  specialize (H (Z.to_nat i)). rewrite Z2Nat.id in H by lia.
  apply H, in_seq. lia.
Qed.

Lemma symmetry_from_check (N : Z) (tbl : list Z) :
  0 < N ->
  forallb (fun j =>
             let i := Z.of_nat j in
             (negb (i <=? N / 2) || (entry tbl i =? entry tbl (N / 2 - i)))
             && (negb ((0 <? i) && (i <? N / 2))
                 || ((entry tbl (N / 2 + i) =? entry tbl (N - i))
                     && (entry tbl i + entry tbl (i + N / 2) =? register_max))))
          (seq 0 (Z.to_nat N)) = true ->
  (forall i, 0 <= i <= N / 2 -> entry tbl i = entry tbl (N / 2 - i)) /\
  (forall i, 0 < i < N / 2 -> entry tbl (N / 2 + i) = entry tbl (N - i)) /\
  (forall i, 0 < i < N / 2 -> entry tbl i + entry tbl (i + N / 2) = register_max).
Proof.
  intros HN H.
  pose proof (forallb_below _ (fun i =>
    (negb (i <=? N / 2) || (entry tbl i =? entry tbl (N / 2 - i)))
    && (negb ((0 <? i) && (i <? N / 2))
        || ((entry tbl (N / 2 + i) =? entry tbl (N - i))
            && (entry tbl i + entry tbl (i + N / 2) =? register_max)))) H) as Hall.
  cbv beta in Hall. rewrite Z2Nat.id in Hall by lia.
  assert (Hh : N / 2 < N) by (apply Z.div_lt; lia).
  assert (Hh0 : 0 <= N / 2) by (apply Z.div_pos; lia).
  repeat split; intros i Hi.
  - destruct (Z.eq_dec i N) as [-> | Hne]; [lia |].
    specialize (Hall i ltac:(lia)). apply andb_true_iff in Hall. destruct Hall as [Ha _].
    apply orb_true_iff in Ha. destruct Ha as [Ha | Ha].
    + apply negb_true_iff, Z.leb_gt in Ha. lia.
    + apply Z.eqb_eq. exact Ha.
  - specialize (Hall i ltac:(lia)). apply andb_true_iff in Hall. destruct Hall as [_ Hb].
    apply orb_true_iff in Hb. destruct Hb as [Hb | Hb].
    + apply negb_true_iff, andb_false_iff in Hb.
      destruct Hb as [Hb | Hb]; apply Z.ltb_ge in Hb; lia.
    + apply andb_true_iff in Hb. apply Z.eqb_eq, Hb.
  - specialize (Hall i ltac:(lia)). apply andb_true_iff in Hall. destruct Hall as [_ Hb].
    apply orb_true_iff in Hb. destruct Hb as [Hb | Hb].
    + apply negb_true_iff, andb_false_iff in Hb.
      destruct Hb as [Hb | Hb]; apply Z.ltb_ge in Hb; lia.
    + apply andb_true_iff in Hb. apply Z.eqb_eq, Hb.
Qed.

(** X9.  Every table is a symmetric wave.  Its rising and falling flanks
    mirror each other, [T[i] = T[N/2 - i]] on the first half and
    [T[N/2 + i] = T[N - i]] on the second; half a period apart the entries
    are complementary, [T[i] + T[i + N/2] = 255], except for the pair at
    [i = 0], which are both 128; so the entries add up to [255 * N/2 + 1],
    a mean of [127.5 + 1/N]. *)
Theorem X9_table_symmetry (N : Z) (tbl : list Z) :
  SINE_FULL_WAVE_for N = Built tbl ->
  (forall i, 0 <= i <= N / 2 -> entry tbl i = entry tbl (N / 2 - i)) /\
  (forall i, 0 < i < N / 2 -> entry tbl (N / 2 + i) = entry tbl (N - i)) /\
  (forall i, 0 < i < N / 2 -> entry tbl i + entry tbl (i + N / 2) = register_max) /\
  entry tbl 0 = 128 /\ entry tbl (N / 2) = 128 /\
  table_sum tbl = register_max * (N / 2) + 1.
Proof.
  intros Hb.
  assert (H : (forall i, 0 <= i <= N / 2 -> entry tbl i = entry tbl (N / 2 - i)) /\
              (forall i, 0 < i < N / 2 -> entry tbl (N / 2 + i) = entry tbl (N - i)) /\
              (forall i, 0 < i < N / 2 ->
                 entry tbl i + entry tbl (i + N / 2) = register_max)).
  { destruct (SINE_FULL_WAVE_for_cases N tbl Hb) as [[-> ->] | [[-> ->] | [-> ->]]];
      (apply symmetry_from_check; [lia | vm_compute; reflexivity]). }
  destruct H as (H1 & H2 & H3).
  split; [exact H1 | split; [exact H2 | split; [exact H3 |]]].
  destruct (SINE_FULL_WAVE_for_cases N tbl Hb) as [[-> ->] | [[-> ->] | [-> ->]]];
    repeat split; vm_compute; reflexivity.
Qed.

Lemma X9_witness :
  entry SINE_FULL_WAVE_1024 0 = 128 /\ entry SINE_FULL_WAVE_1024 (1024 / 2) = 128 /\
  table_sum SINE_FULL_WAVE_1024 = register_max * (1024 / 2) + 1.
Proof.
  refine (proj2 (proj2 (proj2 (X9_table_symmetry 1024 SINE_FULL_WAVE_1024 _)))).
  reflexivity.
Defined.

Lemma shape_from_check (N : Z) (tbl : list Z) :
  0 < N ->
  forallb (fun j =>
             let i := Z.of_nat j in
             (negb (i <? N - 1)
              || ((Z.abs (entry tbl (i + 1) - entry tbl i) <=? 1024 / N)
                  && (if i <? N / 4 then entry tbl i <=? entry tbl (i + 1)
                      else if i <? 3 * (N / 4) then entry tbl (i + 1) <=? entry tbl i
                      else entry tbl i <=? entry tbl (i + 1)))))
          (seq 0 (Z.to_nat N)) = true ->
  (forall i, 0 <= i < N / 4 -> entry tbl i <= entry tbl (i + 1)) /\
  (forall i, N / 4 <= i < 3 * (N / 4) -> entry tbl (i + 1) <= entry tbl i) /\
  (forall i, 3 * (N / 4) <= i < N - 1 -> entry tbl i <= entry tbl (i + 1)) /\
  (forall i, 0 <= i < N - 1 -> Z.abs (entry tbl (i + 1) - entry tbl i) <= 1024 / N).
Proof.
  intros HN H.
  pose proof (forallb_below _ (fun i =>
    (negb (i <? N - 1)
     || ((Z.abs (entry tbl (i + 1) - entry tbl i) <=? 1024 / N)
         && (if i <? N / 4 then entry tbl i <=? entry tbl (i + 1)
             else if i <? 3 * (N / 4) then entry tbl (i + 1) <=? entry tbl i
             else entry tbl i <=? entry tbl (i + 1))))) H) as Hall.
  cbv beta in Hall. rewrite Z2Nat.id in Hall by lia.
  assert (Hq : 0 <= N / 4) by (apply Z.div_pos; lia).
  assert (Hq' : 4 * (N / 4) <= N) by (apply Z.mul_div_le; lia).
  assert (Hstep : forall i, 0 <= i < N - 1 ->
            Z.abs (entry tbl (i + 1) - entry tbl i) <= 1024 / N /\
            (if i <? N / 4 then entry tbl i <=? entry tbl (i + 1)
             else if i <? 3 * (N / 4) then entry tbl (i + 1) <=? entry tbl i
             else entry tbl i <=? entry tbl (i + 1)) = true).
  { intros i Hi. specialize (Hall i ltac:(lia)).
    apply orb_true_iff in Hall. destruct Hall as [Hc | Hc].
    - apply negb_true_iff, Z.ltb_ge in Hc. lia.
    - apply andb_true_iff in Hc. destruct Hc as [Hc1 Hc2].
      apply Z.leb_le in Hc1. auto. }
  repeat split; intros i Hi.
  - destruct (Hstep i ltac:(lia)) as [_ Hm].
    destruct (Z.ltb_spec i (N / 4)); [apply Z.leb_le, Hm | lia].
  - destruct (Hstep i ltac:(lia)) as [_ Hm].
    destruct (Z.ltb_spec i (N / 4)); [lia |].
    destruct (Z.ltb_spec i (3 * (N / 4))); [apply Z.leb_le, Hm | lia].
  - destruct (Hstep i ltac:(lia)) as [_ Hm].
    destruct (Z.ltb_spec i (N / 4)); [lia |].
    destruct (Z.ltb_spec i (3 * (N / 4))); [lia | apply Z.leb_le, Hm].
  - apply (Hstep i Hi).
Qed.

(** X10.  Every table is one hump and one trough: the entries do not
    decrease up to index [N/4], where they reach 255, do not increase from
    there to index [3N/4], where they reach 0, and do not decrease from
    there to the end; neighbouring entries differ by at most [1024/N]
    counts (4, 2 and 1 for 256, 512 and 1024 samples). *)
Theorem X10_table_shape (N : Z) (tbl : list Z) :
  SINE_FULL_WAVE_for N = Built tbl ->
  (forall i, 0 <= i < N / 4 -> entry tbl i <= entry tbl (i + 1)) /\
  (forall i, N / 4 <= i < 3 * (N / 4) -> entry tbl (i + 1) <= entry tbl i) /\
  (forall i, 3 * (N / 4) <= i < N - 1 -> entry tbl i <= entry tbl (i + 1)) /\
  (forall i, 0 <= i < N - 1 -> Z.abs (entry tbl (i + 1) - entry tbl i) <= 1024 / N) /\
  entry tbl (N / 4) = register_max /\
  entry tbl (3 * (N / 4)) = 0.
Proof.
  intros Hb.
  assert (H : (forall i, 0 <= i < N / 4 -> entry tbl i <= entry tbl (i + 1)) /\
              (forall i, N / 4 <= i < 3 * (N / 4) -> entry tbl (i + 1) <= entry tbl i) /\
              (forall i, 3 * (N / 4) <= i < N - 1 -> entry tbl i <= entry tbl (i + 1)) /\
              (forall i, 0 <= i < N - 1 ->
                 Z.abs (entry tbl (i + 1) - entry tbl i) <= 1024 / N)).
  { destruct (SINE_FULL_WAVE_for_cases N tbl Hb) as [[-> ->] | [[-> ->] | [-> ->]]];
      (apply shape_from_check; [lia | vm_compute; reflexivity]). }
  destruct H as (H1 & H2 & H3 & H4).
  split; [exact H1 | split; [exact H2 | split; [exact H3 | split; [exact H4 |]]]].
  destruct (SINE_FULL_WAVE_for_cases N tbl Hb) as [[-> ->] | [[-> ->] | [-> ->]]];
    split; vm_compute; reflexivity.
Qed.

Lemma X10_witness :
  entry SINE_FULL_WAVE_512 (512 / 4) = register_max /\
  entry SINE_FULL_WAVE_512 (3 * (512 / 4)) = 0.
Proof.
  refine (proj2 (proj2 (proj2 (proj2 (X10_table_shape 512 SINE_FULL_WAVE_512 _))))).
  reflexivity.
Defined.

(** X11.  The three tables sample one and the same wave: entry [i] of the
    256-sample table is entry [2i] of the 512-sample table and entry [4i]
    of the 1024-sample table, and entry [i] of the 512-sample table is
    entry [2i] of the 1024-sample table.  Changing [SAMPLE_COUNT] changes
    the resolution, not the waveform. *)
Theorem X11_tables_are_subsamples (i : Z) :
  (0 <= i < 256 ->
   entry SINE_FULL_WAVE_256 i = entry SINE_FULL_WAVE_512 (2 * i) /\
   entry SINE_FULL_WAVE_256 i = entry SINE_FULL_WAVE_1024 (4 * i)) /\
  (0 <= i < 512 ->
   entry SINE_FULL_WAVE_512 i = entry SINE_FULL_WAVE_1024 (2 * i)).
Proof.
  assert (H1 : forallb (fun j => (entry SINE_FULL_WAVE_256 (Z.of_nat j)
                                  =? entry SINE_FULL_WAVE_512 (2 * Z.of_nat j))
                                 && (entry SINE_FULL_WAVE_256 (Z.of_nat j)
                                     =? entry SINE_FULL_WAVE_1024 (4 * Z.of_nat j)))
                 (seq 0 256) = true) by (vm_compute; reflexivity).
  assert (H2 : forallb (fun j => entry SINE_FULL_WAVE_512 (Z.of_nat j)
                                 =? entry SINE_FULL_WAVE_1024 (2 * Z.of_nat j))
                 (seq 0 512) = true) by (vm_compute; reflexivity).
  split; intros Hi.
  - pose proof (forallb_below 256 (fun i =>
      (entry SINE_FULL_WAVE_256 i =? entry SINE_FULL_WAVE_512 (2 * i))
      && (entry SINE_FULL_WAVE_256 i =? entry SINE_FULL_WAVE_1024 (4 * i))) H1 i) as H.
    cbv beta in H. apply andb_true_iff in H; [| lia].
    destruct H as [Ha Hb]. split; apply Z.eqb_eq; assumption.
  - pose proof (forallb_below 512 (fun i =>
      entry SINE_FULL_WAVE_512 i =? entry SINE_FULL_WAVE_1024 (2 * i)) H2 i) as H.
    cbv beta in H. apply Z.eqb_eq, H. lia.
Qed.

(** ** The header's frequency table against the law *)

Lemma header_entries_checked :
  forallb (fun e =>
             let '(P, N, h) := e in
             let f := frequency_hz F_CPU_16MHz P N in
             (hundredths_truncated f <=? h) && (h <=? hundredths_truncated f + 1)
             && ((h =? hundredths_nearest f)
                 || ((P =? 1) && (N =? 1024) && (h =? 6103)
                     && (h =? hundredths_truncated f))
                 || ((P =? 8) && (N =? 512) && (h =? 1525)
                     && (h =? hundredths_truncated f)))
             && existsb (Z.eqb P) valid_PRESCALER
             && existsb (Z.eqb N) valid_SAMPLE_COUNT)
          header_entries = true.
Proof. vm_compute. reflexivity. Qed.

Lemma existsb_eqb_In (x : Z) (l : list Z) : existsb (Z.eqb x) l = true -> In x l.
Proof.
  intros H. apply existsb_exists in H. destruct H as (y & Hy & E).
  apply Z.eqb_eq in E. subst y. exact Hy.
Qed.

(** X12.  The frequency table in the header comment against the law at
    16 MHz.  Every printed figure belongs to a valid prescaler and sample
    count and is the law's value rounded to hundredths, down or up; it is
    the nearest hundredth everywhere except for 61.03 Hz (prescaler 1, 1024
    samples) and 15.25 Hz (prescaler 8, 512 samples), which are truncated.
    Every valid pair of prescaler and sample count has its figure. *)
Theorem X12_header_table_follows_the_law :
  (forall P N h, In (P, N, h) header_entries ->
     In P valid_PRESCALER /\ In N valid_SAMPLE_COUNT /\
     hundredths_truncated (frequency_hz F_CPU_16MHz P N) <= h
       <= hundredths_truncated (frequency_hz F_CPU_16MHz P N) + 1 /\
     (h = hundredths_nearest (frequency_hz F_CPU_16MHz P N) \/
      (P, N, h) = (1, 1024, 6103) \/ (P, N, h) = (8, 512, 1525))) /\
  (hundredths_nearest (frequency_hz F_CPU_16MHz 1 1024) = 6104 /\
   hundredths_truncated (frequency_hz F_CPU_16MHz 1 1024) = 6103 /\
   hundredths_nearest (frequency_hz F_CPU_16MHz 8 512) = 1526 /\
   hundredths_truncated (frequency_hz F_CPU_16MHz 8 512) = 1525) /\
  (forall P N, In P valid_PRESCALER -> In N valid_SAMPLE_COUNT ->
     exists h, In (P, N, h) header_entries).
Proof.
  split; [| split].
  - intros P N h Hin.
    pose proof (proj1 (forallb_forall _ _) header_entries_checked _ Hin) as H.
    cbv beta iota in H.
    repeat (apply andb_true_iff in H; destruct H as [H ?]).
    repeat match goal with
           | H : existsb _ _ = true |- _ => apply existsb_eqb_In in H
           | H : (_ <=? _) = true |- _ => apply Z.leb_le in H
           end.
    repeat split; try assumption.
    repeat match goal with
           | H : (_ || _) = true |- _ => apply orb_true_iff in H; destruct H as [H | H]
           end.
    + left. apply Z.eqb_eq. assumption.
    + right; left.
      repeat match goal with
             | H : (_ && _) = true |- _ => apply andb_true_iff in H; destruct H as [H ?]
             end.
      repeat match goal with
             | H : (_ =? _) = true |- _ => apply Z.eqb_eq in H
             end.
      congruence.
    + right; right.
      repeat match goal with
             | H : (_ && _) = true |- _ => apply andb_true_iff in H; destruct H as [H ?]
             end.
      repeat match goal with
             | H : (_ =? _) = true |- _ => apply Z.eqb_eq in H
             end.
      congruence.
  - repeat split; vm_compute; reflexivity.
  - unfold valid_PRESCALER, valid_SAMPLE_COUNT. cbn [In].
    intros P N HP HN.
    repeat match goal with
           | H : _ \/ _ |- _ => destruct H as [H | H]
           | H : False |- _ => destruct H
           end; subst P N; eexists; cbn; auto 25.
Qed.

(** ** The frequency of the wave the sketch puts out *)

(** The output of a supported build started at index 0 repeats every
    [SAMPLE_COUNT] overflow events and at no shorter distance. *)
Lemma output_least_period (N : Z) (tbl : list Z) (s : avr) :
  SINE_FULL_WAVE_for N = Built tbl ->
  ISR_i s = 0 ->
  (forall k, nth_output N tbl (k + Z.to_nat N) s = nth_output N tbl k s) /\
  (forall p, (0 < p < Z.to_nat N)%nat ->
     exists k, nth_output N tbl (k + p) s <> nth_output N tbl k s).
Proof.
  intros Hb Hs. pose proof (SINE_FULL_WAVE_for_pow2 N tbl Hb) as Hp.
  pose proof (pow2_table_pos N tbl Hp) as HN.
  split.
  - intros k. rewrite !nth_output_spec by assumption. do 2 f_equal.
    rewrite Nat2Z.inj_add, Z2Nat.id by lia.
    rewrite <- Zplus_mod_idemp_r, Z.mod_same, Z.add_0_r by lia. reflexivity.
  - intros p Hpr.
    assert (Hex : exists k, 0 <= k < N /\
                    entry tbl ((k + Z.of_nat p) mod N) <> entry tbl (k mod N)).
    { destruct peak_run_breaks_every_shift as (H256 & H512 & H1024).
      destruct (SINE_FULL_WAVE_for_cases N tbl Hb) as [[-> ->] | [[-> ->] | [-> ->]]].
      - apply (shift_breaks 256 61 67);
          [lia | lia | lia | lia | reflexivity | reflexivity | exact H256].
      - apply (shift_breaks 512 121 135);
          [lia | lia | lia | lia | reflexivity | reflexivity | exact H512].
      - apply (shift_breaks 1024 242 270);
          [lia | lia | lia | lia | reflexivity | reflexivity | exact H1024]. }
    destruct Hex as (k & Hk & Hne).
    exists (Z.to_nat k). rewrite !nth_output_spec by assumption.
    rewrite Nat2Z.inj_add, Z2Nat.id by lia. congruence.
Qed.

Lemma valid_values_in_range (x : Z) :
  In x valid_SAMPLE_COUNT \/ In x valid_PRESCALER -> preprocessor_value x = x.
Proof.
  unfold valid_SAMPLE_COUNT, valid_PRESCALER, preprocessor_value. cbn [In].
  intros H. apply Z.mod_small.
  assert (H64 : 2 ^ 64 = 18446744073709551616) by reflexivity. lia.
Qed.

(** The sketch built for a valid prescaler and sample count. *)
Lemma compile_valid (P N : Z) :
  In P valid_PRESCALER -> In N valid_SAMPLE_COUNT ->
  exists tbl cs,
    SINE_FULL_WAVE_for N = Built tbl /\ PRESCALER_bits P = Built cs /\
    compile P N = Built (mkSketch N P tbl cs).
Proof.
  intros HP HN.
  destruct (proj2 (SINE_FULL_WAVE_for_valid N) HN) as [tbl Ht].
  destruct (proj2 (PRESCALER_bits_valid P) HP) as [cs Hc].
  exists tbl, cs. split; [exact Ht | split; [exact Hc |]].
  unfold compile.
  rewrite (valid_values_in_range N), (valid_values_in_range P) by auto.
  rewrite Ht, Hc. reflexivity.
Qed.

Lemma output_frequency_after_startup (F_CPU P N : Z) (cs : clock_select) (reset : avr) :
  PRESCALER_bits P = Built cs ->
  output_frequency_hz F_CPU (startup cs reset) N = Some (frequency_hz F_CPU P N).
Proof.
  intros Hc. unfold output_frequency_hz, startup.
  rewrite setup_clock_select, (PRESCALER_bits_divider P cs Hc). reflexivity.
Qed.

(** C6.  The frequency of the wave the sketch puts out.  Built for a valid
    [PRESCALER] and [SAMPLE_COUNT], [setup] leaves the clock select for the
    divider [PRESCALER] in [TCCR2B], and the handler's output repeats every
    [SAMPLE_COUNT] overflow events and at no shorter distance; with [2^8]
    timer counts per overflow the wave therefore has the frequency
    [F_CPU / (PRESCALER * 256 * SAMPLE_COUNT)].  At 16 MHz the sketch built
    with prescaler 1 and 256 samples gives 244.140625 Hz, with prescaler 8
    and 512 samples 15.2587890625 Hz, and with prescaler 1024 and 1024
    samples 16000000/268435456 Hz; the figures 244.14, 15.25 and 0.06 are
    these values rounded to hundredths (the first two down, the third
    up). *)
Theorem C6_output_frequency (reset : avr) :
  (forall F_CPU P N,
     In P valid_PRESCALER -> In N valid_SAMPLE_COUNT ->
     exists sk,
       compile P N = Built sk /\
       clock_divider (TCCR2B_clock_select (startup (sk_clock_select sk) reset))
         = Some P /\
       (forall k, nth_output N (sk_SINE_FULL_WAVE sk) (k + Z.to_nat N)
                    (startup (sk_clock_select sk) reset)
                  = nth_output N (sk_SINE_FULL_WAVE sk) k
                      (startup (sk_clock_select sk) reset)) /\
       (forall p, (0 < p < Z.to_nat N)%nat ->
          exists k, nth_output N (sk_SINE_FULL_WAVE sk) (k + p)
                      (startup (sk_clock_select sk) reset)
                    <> nth_output N (sk_SINE_FULL_WAVE sk) k
                         (startup (sk_clock_select sk) reset)) /\
       output_frequency_hz F_CPU (startup (sk_clock_select sk) reset) N
         = Some (inject_Z F_CPU / inject_Z (P * 256 * N))%Q) /\
  (exists sk f,
     compile 1 256 = Built sk /\
     output_frequency_hz F_CPU_16MHz (startup (sk_clock_select sk) reset) 256 = Some f /\
     (f == 244.140625)%Q /\ printed_as f 24414 /\ 24414 = hundredths_truncated f) /\
  (exists sk f,
     compile 8 512 = Built sk /\
     output_frequency_hz F_CPU_16MHz (startup (sk_clock_select sk) reset) 512 = Some f /\
     (f == 15.2587890625)%Q /\ printed_as f 1525 /\ 1525 = hundredths_truncated f) /\
  (exists sk f,
     compile 1024 1024 = Built sk /\
     output_frequency_hz F_CPU_16MHz (startup (sk_clock_select sk) reset) 1024 = Some f /\
     (f == 16000000 # 268435456)%Q /\ printed_as f 6 /\ 6 = hundredths_up f).
Proof.
  split; [| split; [| split]].
  - intros F_CPU P N HP HN.
    destruct (compile_valid P N HP HN) as (tbl & cs & Ht & Hc & Hsk).
    exists (mkSketch N P tbl cs). cbn [sk_clock_select sk_SINE_FULL_WAVE].
    assert (H0 : ISR_i (startup cs reset) = 0) by (destruct cs as [[? ?] ?]; reflexivity).
    destruct (output_least_period N tbl (startup cs reset) Ht H0) as [Hper Hmin].
    split; [exact Hsk | split; [| split; [exact Hper | split; [exact Hmin |]]]].
    + unfold startup. rewrite setup_clock_select. apply PRESCALER_bits_divider, Hc.
    + rewrite (output_frequency_after_startup F_CPU P N cs reset Hc). reflexivity.
  - exists (mkSketch 256 1 SINE_FULL_WAVE_256 (false, false, true)),
           (frequency_hz F_CPU_16MHz 1 256).
    split; [reflexivity | split; [apply output_frequency_after_startup; reflexivity |]].
    split; [vm_compute; reflexivity | split; [left |]; vm_compute; reflexivity].
  - exists (mkSketch 512 8 SINE_FULL_WAVE_512 (false, true, false)),
           (frequency_hz F_CPU_16MHz 8 512).
    split; [reflexivity | split; [apply output_frequency_after_startup; reflexivity |]].
    split; [vm_compute; reflexivity | split; [left |]; vm_compute; reflexivity].
  - exists (mkSketch 1024 1024 SINE_FULL_WAVE_1024 (true, true, true)),
           (frequency_hz F_CPU_16MHz 1024 1024).
    split; [reflexivity | split; [apply output_frequency_after_startup; reflexivity |]].
    split; [vm_compute; reflexivity | split; [right |]; vm_compute; reflexivity].
Qed.
